(** * longhorn-engine, package [util]: device lifecycle and device-node helpers

    A shallow embedding of [util/util.go].  The package is a sequencing
    layer over external collaborators (the go-iscsi-helper library, the
    [unix] and [os] packages, the logger), so every function is embedded as
    a _program_: a tree of the calls it makes, with the Go control flow
    between them.  A program is run against an arbitrary, stateful handler
    for the collaborators; the run yields the value returned, the final
    contents of the receiver and the ordered log of everything that was
    invoked.  [remove] starts a goroutine and races it against a timer; it
    is run by a small interleaving semantics with an explicit clock. *)

From Stdlib Require Import ZArith String Ascii List Bool Lia DecimalString Znumtheory.
From Stdlib Require DecimalPos FMapList FMapFacts OrderedTypeEx.
From ExtLib Require Import Structures.Monad.
Import ListNotations.
Import MonadNotation.
Local Open Scope monad_scope.
Local Open Scope string_scope.
Local Open Scope Z_scope.

Set Implicit Arguments.

(* ===================================================================== *)
(** * Go values                                                           *)
(* ===================================================================== *)

(** A non-nil value of the interface type [error], as far as this package
    can observe one: the text of its [Error()] method (what [%v] prints)
    and the verdict [os.IsNotExist] gives on it. *)
Record error : Type := mkError { Error : string; notExist : bool }.

(** A Go [error]: [None] is [nil]. *)
Definition goerror : Type := option error.

(** [fmt.Errorf] with the format already expanded: a fresh error carrying
    that text; [os.IsNotExist] is false on it. *)
Definition fmt_Errorf (msg : string) : error :=
  {| Error := msg; notExist := false |}.

Definition os_IsNotExist (err : goerror) : bool :=
  match err with
  | Some e => notExist e
  | None => false
  end.

Definition isNil (err : goerror) : bool :=
  match err with
  | Some _ => false
  | None => true
  end.

(** Two's-complement wrap-around of [int] (64 bits, as on linux/amd64),
    [uint64] and [uint32]. *)
Definition int64 (z : Z) : Z := (z + 2 ^ 63) mod 2 ^ 64 - 2 ^ 63.
Definition uint64 (z : Z) : Z := z mod 2 ^ 64.
Definition uint32 (z : Z) : Z := z mod 2 ^ 32.

(* ===================================================================== *)
(** * Programs over an event signature                                    *)
(* ===================================================================== *)

(** A program either returns, panics, or performs an event [e] whose answer
    [x : X] selects the rest of the program. *)
Inductive Prog (E : Type -> Type) (R : Type) : Type :=
| Ret (r : R)
| Panic (msg : string)
| Vis (X : Type) (e : E X) (k : X -> Prog E R).

Arguments Ret {E R} r.
Arguments Panic {E R} msg.
Arguments Vis {E R X} e k.

Fixpoint Prog_bind {E : Type -> Type} {R T : Type}
    (p : Prog E R) (f : R -> Prog E T) : Prog E T :=
  match p with
  | Ret r => f r
  | Panic msg => Panic msg
  | Vis e k => Vis e (fun x => Prog_bind (k x) f)
  end.

#[export] Instance Monad_Prog {E : Type -> Type} : Monad (Prog E) :=
  {| ret := fun _ r => Ret r;
     bind := fun _ _ p f => Prog_bind p f |}.

Definition trigger {E : Type -> Type} {X : Type} (e : E X) : Prog E X :=
  Vis e (fun x => Ret x).

(** [if err := c; err != nil { return err }] followed by [k]. *)
Definition orReturn {E : Type -> Type} (c : Prog E goerror)
    (k : Prog E goerror) : Prog E goerror :=
  err <- c ;;
  match err with
  | Some _ => ret err
  | None => k
  end.

Notation "'check' c ';;' k" := (orReturn c k)
  (at level 61, c at next level, right associativity) : monad_scope.

(** How a run ends. *)
Inductive outcome (R : Type) : Type :=
| Returned (r : R)
| Panicked (msg : string).

Arguments Returned {R} r.
Arguments Panicked {R} msg.

(** Running a sequential program: [handle] answers each event from the
    world [W] and says what it adds to the log; the run returns how the
    program ended, the final world and the log, oldest entry first. *)
Fixpoint run {E : Type -> Type} {W A R : Type}
    (handle : forall X : Type, E X -> W -> X * W * list A)
    (p : Prog E R) (w : W) : outcome R * W * list A :=
  match p with
  | Ret r => (Returned r, w, [])
  | Panic msg => (Panicked msg, w, [])
  | Vis e k =>
      let '(x, w1, l1) := handle _ e w in
      let '(o, w2, l2) := run handle (k x) w1 in
      (o, w2, (l1 ++ l2)%list)
  end.

(* ===================================================================== *)
(** * ScsiDevice                                                          *)
(* ===================================================================== *)

Record ScsiDevice : Type := mkScsiDevice {
  Target : string;
  TargetID : Z;
  LunID : Z;
  Device : string;
  Portal : string;
  BackingFile : string;
  BSType : string;
  BSOpts : string
}.

(** [dev.Portal = ip] and [dev.Device = s]. *)
Definition set_Portal (ip : string) (dev : ScsiDevice) : ScsiDevice :=
  {| Target := Target dev; TargetID := TargetID dev; LunID := LunID dev;
     Device := Device dev; Portal := ip; BackingFile := BackingFile dev;
     BSType := BSType dev; BSOpts := BSOpts dev |}.

Definition set_Device (s : string) (dev : ScsiDevice) : ScsiDevice :=
  {| Target := Target dev; TargetID := TargetID dev; LunID := LunID dev;
     Device := s; Portal := Portal dev; BackingFile := BackingFile dev;
     BSType := BSType dev; BSOpts := BSOpts dev |}.

(** [*iutil.NamespaceExecutor]: the pointer handed back by
    [NewNamespaceExecutor] ([None] is the nil pointer).  The package never
    looks inside it. *)
Record NamespaceExecutor : Type := { ns : string }.
Definition NamespaceExecutorPtr : Type := option NamespaceExecutor.

(** The control surface of go-iscsi-helper (packages [iscsi] and [iutil])
    that this file calls, each with the type of what it returns. *)
Inductive iscsiE : Type -> Type :=
| GetLocalIPs : iscsiE (list string * goerror)
| NewNamespaceExecutor (path : string) : iscsiE (NamespaceExecutorPtr * goerror)
| CheckForInitiatorExistence (ne : NamespaceExecutorPtr) : iscsiE goerror
| StartDaemon (debug : bool) : iscsiE goerror
| CreateTarget (tid : Z) (name : string) : iscsiE goerror
| AddLun (tid lun : Z) (backingFile bstype bsopts : string) : iscsiE goerror
| BindInitiator (tid : Z) (initiator : string) : iscsiE goerror
| DiscoverTarget (ip target : string) (ne : NamespaceExecutorPtr) : iscsiE goerror
| LoginTarget (ip target : string) (ne : NamespaceExecutorPtr) : iscsiE goerror
| GetDevice (ip target : string) (lun : Z) (ne : NamespaceExecutorPtr) :
    iscsiE (string * goerror)
| LogoutTarget (ip target : string) (ne : NamespaceExecutorPtr) : iscsiE goerror
| DeleteDiscoveredTarget (ip target : string) (ne : NamespaceExecutorPtr) :
    iscsiE goerror
| UnbindInitiator (tid : Z) (initiator : string) : iscsiE goerror
| DeleteLun (tid lun : Z) : iscsiE goerror
| DeleteTarget (tid : Z) : iscsiE goerror.

(** What a method with receiver [dev *ScsiDevice] can do: call a
    collaborator, read the struct behind [dev], assign [dev.Device]. *)
Inductive devE : Type -> Type :=
| Iscsi (X : Type) (c : iscsiE X) : devE X
| Deref : devE ScsiDevice
| AssignDevice (s : string) : devE unit.

Arguments Iscsi {X} c.

Definition iscsi {X : Type} (c : iscsiE X) : Prog devE X := trigger (Iscsi c).

Definition NewScsiDevice (name backingFile bsType bsOpts : string)
    : Prog devE (option ScsiDevice * goerror) :=
  let dev := {| Target := "iqn.2014-07.com.rancher:" ++ name;
                TargetID := 1;
                LunID := 1;
                Device := "";
                Portal := "";
                BackingFile := backingFile;
                BSType := bsType;
                BSOpts := bsOpts |} in
  '(ips, err) <- iscsi GetLocalIPs ;;
  match err with
  | Some _ => ret (None, err)
  | None =>
      match ips with
      | [] => Panic "runtime error: index out of range [0] with length 0"
      | ip :: _ => ret (Some (set_Portal ip dev), None)
      end
  end.

(** The methods read the struct behind [dev] once, for the fields they hand
    to the collaborators: nothing else writes it while a method runs, and
    the one field a method assigns, [Device], it does not read afterwards. *)
Definition Startup : Prog devE goerror :=
  '(ne, err) <- iscsi (NewNamespaceExecutor "/host/proc/1/ns/") ;;
  match err with
  | Some _ => ret err
  | None =>
      check iscsi (CheckForInitiatorExistence ne) ;;
      (* Setup target *)
      check iscsi (StartDaemon false) ;;
      dev <- trigger Deref ;;
      check iscsi (CreateTarget (TargetID dev) (Target dev)) ;;
      check iscsi (AddLun (TargetID dev) (LunID dev) (BackingFile dev)
                     (BSType dev) (BSOpts dev)) ;;
      check iscsi (BindInitiator (TargetID dev) "ALL") ;;
      (* Setup initiator *)
      check iscsi (DiscoverTarget (Portal dev) (Target dev) ne) ;;
      check iscsi (LoginTarget (Portal dev) (Target dev) ne) ;;
      '(path, err) <- iscsi (GetDevice (Portal dev) (Target dev) (LunID dev) ne) ;;
      trigger (AssignDevice path) ;;
      match err with
      | Some _ => ret err
      | None => ret None
      end
  end.

Definition Shutdown : Prog devE goerror :=
  dev <- trigger Deref ;;
  if String.eqb (Device dev) "" then
    ret (Some (fmt_Errorf "SCSI Device is already down"))
  else
    '(ne, err) <- iscsi (NewNamespaceExecutor "/host/proc/1/ns/") ;;
    match err with
    | Some _ => ret err
    | None =>
        check iscsi (CheckForInitiatorExistence ne) ;;
        (* Teardown initiator *)
        check iscsi (LogoutTarget (Portal dev) (Target dev) ne) ;;
        trigger (AssignDevice "") ;;
        check iscsi (DeleteDiscoveredTarget (Portal dev) (Target dev) ne) ;;
        (* Teardown target *)
        check iscsi (UnbindInitiator (TargetID dev) "ALL") ;;
        check iscsi (DeleteLun (TargetID dev) (LunID dev)) ;;
        check iscsi (DeleteTarget (TargetID dev)) ;;
        ret None
    end.

(** ** Running a method against the collaborators *)

(** One entry of the log of a run: a collaborator call with its answer, or
    an assignment to [dev.Device]. *)
Inductive action : Type :=
| Called (X : Type) (c : iscsiE X) (x : X)
| Stored (s : string).

Arguments Called {X} c x.

(** The collaborators: any function from a call and their own state [S] to
    an answer and a new state. *)
Definition handler (S : Type) : Type := forall X : Type, iscsiE X -> S -> X * S.

Record World (S : Type) : Type := mkWorld {
  heap : ScsiDevice;     (* the struct behind [dev] *)
  ext : S                (* the state of the collaborators *)
}.

Definition handleDev {S : Type} (h : handler S) (X : Type) (e : devE X)
    (w : World S) : X * World S * list action :=
  match e in devE X return X * World S * list action with
  | Iscsi c =>
      let (x, s') := h _ c (ext w) in
      (x, {| heap := heap w; ext := s' |}, [Called c x])
  | Deref => (heap w, w, [])
  | AssignDevice s =>
      (tt, {| heap := set_Device s (heap w); ext := ext w |}, [Stored s])
  end.

Definition runDev {S R : Type} (h : handler S) (p : Prog devE R) (w : World S)
    : outcome R * World S * list action :=
  run (handleDev h) p w.

(** The error part of a collaborator's answer. *)
Definition answer_error {X : Type} (c : iscsiE X) : X -> goerror :=
  match c in iscsiE X return X -> goerror with
  | GetLocalIPs => snd
  | NewNamespaceExecutor _ => snd
  | GetDevice _ _ _ _ => snd
  | CheckForInitiatorExistence _ => fun err => err
  | StartDaemon _ => fun err => err
  | CreateTarget _ _ => fun err => err
  | AddLun _ _ _ _ _ => fun err => err
  | BindInitiator _ _ => fun err => err
  | DiscoverTarget _ _ _ => fun err => err
  | LoginTarget _ _ _ => fun err => err
  | LogoutTarget _ _ _ => fun err => err
  | DeleteDiscoveredTarget _ _ _ => fun err => err
  | UnbindInitiator _ _ => fun err => err
  | DeleteLun _ _ => fun err => err
  | DeleteTarget _ => fun err => err
  end.

(** A call without its answer. *)
Inductive call : Type :=
| Call (X : Type) (c : iscsiE X).

Arguments Call {X} c.

(** The collaborator calls of a log, in order, and the error each one
    returned. *)
Fixpoint calls (l : list action) : list call :=
  match l with
  | [] => []
  | Called c _ :: l' => Call c :: calls l'
  | Stored _ :: l' => calls l'
  end.

Fixpoint errors (l : list action) : list goerror :=
  match l with
  | [] => []
  | Called c x :: l' => answer_error c x :: errors l'
  | Stored _ :: l' => errors l'
  end.

(** The nine steps of [Startup] on the device [dev], with the executor [ne]
    that the first step handed back. *)
Definition Startup_steps (dev : ScsiDevice) (ne : NamespaceExecutorPtr)
    : list call :=
  [ Call (NewNamespaceExecutor "/host/proc/1/ns/");
    Call (CheckForInitiatorExistence ne);
    Call (StartDaemon false);
    Call (CreateTarget (TargetID dev) (Target dev));
    Call (AddLun (TargetID dev) (LunID dev) (BackingFile dev) (BSType dev)
            (BSOpts dev));
    Call (BindInitiator (TargetID dev) "ALL");
    Call (DiscoverTarget (Portal dev) (Target dev) ne);
    Call (LoginTarget (Portal dev) (Target dev) ne);
    Call (GetDevice (Portal dev) (Target dev) (LunID dev) ne) ].

(** The seven collaborator calls of [Shutdown]. *)
Definition Shutdown_steps (dev : ScsiDevice) (ne : NamespaceExecutorPtr)
    : list call :=
  [ Call (NewNamespaceExecutor "/host/proc/1/ns/");
    Call (CheckForInitiatorExistence ne);
    Call (LogoutTarget (Portal dev) (Target dev) ne);
    Call (DeleteDiscoveredTarget (Portal dev) (Target dev) ne);
    Call (UnbindInitiator (TargetID dev) "ALL");
    Call (DeleteLun (TargetID dev) (LunID dev));
    Call (DeleteTarget (TargetID dev)) ].

(* ===================================================================== *)
(** * Device nodes                                                        *)
(* ===================================================================== *)

(** [unix.Stat_t]; [DuplicateDevice] reads [Rdev] (a [uint64]) only. *)
Record Stat_t : Type := { Rdev : Z }.

(** [os.FileInfo], which [RemoveDevice] discards. *)
Record FileInfo : Type := { Name : string; Size : Z; Mode : Z }.

(** The operating-system and logging calls of this file. *)
Inductive sysE : Type -> Type :=
| unix_Stat (path : string) : sysE (Stat_t * goerror)
| unix_Mknod (path : string) (mode : Z) (dev : Z) : sysE goerror
| os_Stat (name : string) : sysE (option FileInfo * goerror)
| os_Remove (name : string) : sysE goerror
| logrus_Infof (msg : string) : sysE unit
| logrus_Errorf (msg : string) : sysE unit.

Definition S_IFBLK : Z := 0x6000.

(** [%d] of an [int]. *)
Definition itoa (z : Z) : string := NilZero.string_of_int (Z.to_int z).

(** The device number [mknod] builds from [major] and [minor]. *)
Definition mkdev (major minor : Z) : Z :=
  int64 (Z.lor (Z.lor (int64 (Z.shiftl major 8)) (Z.land minor 0xff))
           (int64 (Z.shiftl (Z.land minor 0xfff00) 12))).

Definition mknod (device : string) (major minor : Z) : Prog sysE goerror :=
  let fileMode := 384 (* 0600 *) in
  let fileMode := Z.lor fileMode S_IFBLK in
  let dev := mkdev major minor in
  trigger (logrus_Infof ("Creating device " ++ device ++ " " ++ itoa major
                           ++ ":" ++ itoa minor)) ;;
  trigger (unix_Mknod device (uint32 fileMode) dev).

Definition DuplicateDevice (src dest : string) : Prog sysE goerror :=
  '(stat, err) <- trigger (unix_Stat src) ;;
  match err with
  | Some _ => ret err
  | None =>
      let major := int64 (Rdev stat / 256) in
      let minor := int64 (Rdev stat mod 256) in
      check mknod dest major minor ;;
      ret None
  end.

(** The operating system: any function from a call and its own state. *)
Definition syshandler (S : Type) : Type := forall X : Type, sysE X -> S -> X * S.

Inductive syscall : Type :=
| SysCalled (X : Type) (c : sysE X) (x : X).

Arguments SysCalled {X} c x.

Definition handleSys {S : Type} (h : syshandler S) (X : Type) (c : sysE X)
    (s : S) : X * S * list syscall :=
  let (x, s') := h _ c s in (x, s', [SysCalled c x]).

Definition runSys {S R : Type} (h : syshandler S) (p : Prog sysE R) (s : S)
    : outcome R * S * list syscall :=
  run (handleSys h) p s.

(* ===================================================================== *)
(** * Bounded-time removal                                                *)
(* ===================================================================== *)

(** A [chan error] is named by the order in which it was made; [done] is
    unbuffered.  Instants and durations are in nanoseconds, as in [time]. *)
Definition chan : Type := nat.
Definition Second : Z := 1000000000.

(** Which case of the [select] in [remove] ran. *)
Inductive selected : Type :=
| Received (err : goerror)
| Expired.

(** What [remove] and [removeAsync] do besides system calls: make a
    channel, start a goroutine, send on a channel, start a timer (the timer
    channel of [time.After] is represented by the instant it fires), and
    wait in [select] for a receive from [c] or for the timer. *)
#[warnings="-register-all"]
Inductive goE : Type -> Type :=
| Sys (X : Type) (c : sysE X) : goE X
| MakeChan : goE chan
| Go (p : Prog goE unit) : goE unit
| Send (c : chan) (v : goerror) : goE unit
| time_After (d : Z) : goE Z
| Select (c : chan) (timer : Z) : goE selected.

Arguments Sys {X} c.

Definition sys {X : Type} (c : sysE X) : Prog goE X := trigger (Sys c).

Definition removeAsync (path : string) (done : chan) : Prog goE unit :=
  err <- sys (os_Remove path) ;;
  (if negb (isNil err) && negb (os_IsNotExist err) then
     sys (logrus_Errorf ("Unable to remove: " ++ path)) ;;
     trigger (Send done err)
   else ret tt) ;;
  trigger (Send done None).

Definition remove (path : string) : Prog goE goerror :=
  done <- trigger MakeChan ;;
  trigger (Go (removeAsync path done)) ;;
  timer <- trigger (time_After (30 * Second)) ;;
  r <- trigger (Select done timer) ;;
  match r with
  | Received err => ret err
  | Expired =>
      ret (Some (fmt_Errorf ("Timeout trying to delete " ++ path ++ ".")))
  end.

Definition RemoveDevice (dev : string) : Prog goE goerror :=
  '(_, err) <- sys (os_Stat dev) ;;
  match err with
  | None =>
      err <- remove dev ;;
      match err with
      | Some e =>
          ret (Some (fmt_Errorf ("Failed to removing device " ++ dev ++ ", "
                                   ++ Error e)))
      | None => ret None
      end
  | Some _ => ret None
  end.

(** ** Interleaving semantics *)

(** Who runs: the caller of [remove], or the [i]-th goroutine started. *)
Inductive thread : Type :=
| Caller
| Goroutine (i : nat).

(** Everything the threads share. *)
Record shared (S : Type) : Type := mkShared {
  pool : list (Prog goE unit);       (* the goroutines started so far *)
  now : Z;                           (* the clock *)
  chans : nat;                       (* how many channels were made *)
  os : S;                            (* the state of the operating system *)
  syslog : list (thread * syscall)   (* the system calls made, oldest first *)
}.

(** The calling thread and what it shares with the goroutines. *)
Record config (S : Type) : Type := mkConfig {
  main : Prog goE goerror;
  rest : shared S
}.

(** One step that a thread can take on its own; [None] when it has
    finished or is blocked in a send or a select. *)
Definition advance {S R : Type} (h : syshandler S) (who : thread)
    (p : Prog goE R) (sh : shared S) : option (Prog goE R * shared S) :=
  match p with
  | Vis e k =>
      match e in goE X return (X -> Prog goE R) -> option (Prog goE R * shared S) with
      | Sys c => fun k =>
          let (x, s') := h _ c (os sh) in
          Some (k x, {| pool := pool sh; now := now sh; chans := chans sh;
                        os := s';
                        syslog := (syslog sh ++ [(who, SysCalled c x)])%list |})
      | MakeChan => fun k =>
          Some (k (chans sh), {| pool := pool sh; now := now sh;
                                 chans := Datatypes.S (chans sh); os := os sh;
                                 syslog := syslog sh |})
      | Go q => fun k =>
          Some (k tt, {| pool := (pool sh ++ [q])%list; now := now sh;
                         chans := chans sh; os := os sh; syslog := syslog sh |})
      | time_After d => fun k => Some (k (now sh + d), sh)
      | Send _ _ => fun _ => None
      | Select _ _ => fun _ => None
      end k
  | _ => None
  end.

(** A thread blocked in [select], with its channel, its timer and what it
    does with the case chosen; a thread blocked in a send, with the channel,
    the value and what it does next. *)
Definition selecting {R : Type} (p : Prog goE R)
    : option (chan * Z * (selected -> Prog goE R)) :=
  match p with
  | Vis e k =>
      match e in goE X return (X -> Prog goE R) -> option (chan * Z * (selected -> Prog goE R)) with
      | Select c timer => fun k => Some (c, timer, k)
      | _ => fun _ => None
      end k
  | _ => None
  end.

Definition sending {R : Type} (p : Prog goE R)
    : option (chan * goerror * Prog goE R) :=
  match p with
  | Vis e k =>
      match e in goE X return (X -> Prog goE R) -> option (chan * goerror * Prog goE R) with
      | Send c v => fun k => Some (c, v, k tt)
      | _ => fun _ => None
      end k
  | _ => None
  end.

Fixpoint set_nth {A : Type} (i : nat) (x : A) (l : list A) : list A :=
  match l, i with
  | [], _ => []
  | _ :: l', O => x :: l'
  | y :: l', S i' => y :: set_nth i' x l'
  end.

Definition with_pool {S : Type} (p : list (Prog goE unit)) (sh : shared S)
    : shared S :=
  {| pool := p; now := now sh; chans := chans sh; os := os sh;
     syslog := syslog sh |}.

(** What can happen next: time passes, the caller or goroutine [i] takes a
    step of its own, the send goroutine [i] is blocked in meets the caller's
    receive, or the caller's timer fires. *)
Inductive choice : Type :=
| Tick (d : Z)
| RunMain
| RunGo (i : nat)
| Deliver (i : nat)
| Timeout.

Definition step {S : Type} (h : syshandler S) (a : choice) (c : config S)
    : option (config S) :=
  let sh := rest c in
  match a with
  | Tick d =>
      if 0 <? d then
        Some {| main := main c;
                rest := {| pool := pool sh; now := now sh + d;
                           chans := chans sh; os := os sh;
                           syslog := syslog sh |} |}
      else None
  | RunMain =>
      match advance h Caller (main c) sh with
      | Some (p, sh') => Some {| main := p; rest := sh' |}
      | None => None
      end
  | RunGo i =>
      match nth_error (pool sh) i with
      | Some g =>
          match advance h (Goroutine i) g sh with
          | Some (g', sh') =>
              Some {| main := main c;
                      rest := with_pool (set_nth i g' (pool sh')) sh' |}
          | None => None
          end
      | None => None
      end
  | Deliver i =>
      match selecting (main c), nth_error (pool sh) i with
      | Some (ch, _, k), Some g =>
          match sending g with
          | Some (ch', v, g') =>
              if Nat.eqb ch ch' then
                Some {| main := k (Received v);
                        rest := with_pool (set_nth i g' (pool sh)) sh |}
              else None
          | None => None
          end
      | _, _ => None
      end
  | Timeout =>
      match selecting (main c) with
      | Some (_, timer, k) =>
          if timer <=? now sh then Some {| main := k Expired; rest := sh |}
          else None
      | None => None
      end
  end.

(** A schedule is the list of choices made; [exec] follows it, and is
    [None] when a choice is not possible where it is made. *)
Fixpoint exec {S : Type} (h : syshandler S) (sched : list choice)
    (c : config S) : option (config S) :=
  match sched with
  | [] => Some c
  | a :: sched' =>
      match step h a c with
      | Some c' => exec h sched' c'
      | None => None
      end
  end.

(** The caller starts [p] with no goroutine running. *)
Definition start {S : Type} (p : Prog goE goerror) (t : Z) (n : nat) (s : S)
    (l : list (thread * syscall)) : config S :=
  {| main := p;
     rest := {| pool := []; now := t; chans := n; os := s; syslog := l |} |}.

(* ===================================================================== *)
(** * Scripted collaborators, for concrete runs                           *)
(* ===================================================================== *)

Definition boom : error := {| Error := "exit status 1"; notExist := false |}.

(** Collaborators that count the calls made to them: call number [failAt]
    (from 0) fails with [boom], every other call succeeds.  [GetLocalIPs]
    hands back [ips] and [GetDevice] hands back [path], failing or not. *)
Definition scripted (failAt : option nat) (ips : list string) (path : string)
    : handler nat :=
  fun X c n =>
    let err := match failAt with
               | Some k => if Nat.eqb k n then Some boom else None
               | None => None
               end in
    (match c in iscsiE X return X with
     | GetLocalIPs => (ips, err)
     | NewNamespaceExecutor p => (Some {| ns := p |}, err)
     | GetDevice _ _ _ _ => (path, err)
     | _ => err
     end, Datatypes.S n).

Definition vol1 : ScsiDevice :=
  {| Target := "iqn.2014-07.com.rancher:vol1"; TargetID := 1; LunID := 1;
     Device := ""; Portal := "10.0.0.5"; BackingFile := "/var/lib/vol1.img";
     BSType := "longhorn"; BSOpts := "" |}.

Definition down1 : World nat := {| heap := vol1; ext := 0%nat |}.
Definition up1 : World nat :=
  {| heap := set_Device "/dev/sdb" vol1; ext := 0%nat |}.

(** A small file system: the device nodes with their device numbers, the
    paths whose directory cannot be searched ([os.Stat] fails with EACCES
    though the node is there) and the nodes that are in use ([os.Remove]
    fails with EBUSY). *)
Record fakefs : Type := {
  nodes : list (string * Z);
  unreadable : list string;
  busy : list string
}.

Definition ENOENT (op path : string) : error :=
  {| Error := op ++ " " ++ path ++ ": no such file or directory";
     notExist := true |}.
Definition EACCES (op path : string) : error :=
  {| Error := op ++ " " ++ path ++ ": permission denied"; notExist := false |}.
Definition EBUSY (op path : string) : error :=
  {| Error := op ++ " " ++ path ++ ": device or resource busy";
     notExist := false |}.
Definition EEXIST : error := {| Error := "file exists"; notExist := false |}.

Fixpoint lookup (path : string) (l : list (string * Z)) : option Z :=
  match l with
  | [] => None
  | (p, d) :: l' => if String.eqb p path then Some d else lookup path l'
  end.

Fixpoint unlink (path : string) (l : list (string * Z)) : list (string * Z) :=
  match l with
  | [] => []
  | (p, d) :: l' =>
      if String.eqb p path then unlink path l' else (p, d) :: unlink path l'
  end.

Definition listed (path : string) (l : list string) : bool :=
  existsb (String.eqb path) l.

Definition fakeos : syshandler fakefs :=
  fun X c fs =>
    match c in sysE X return X * fakefs with
    | unix_Stat p =>
        match lookup p (nodes fs) with
        | Some d => (({| Rdev := d |}, None), fs)
        | None => (({| Rdev := 0 |}, Some (ENOENT "stat" p)), fs)
        end
    | unix_Mknod p _ d =>
        match lookup p (nodes fs) with
        | Some _ => (Some EEXIST, fs)
        | None => (None, {| nodes := (p, d) :: nodes fs;
                            unreadable := unreadable fs; busy := busy fs |})
        end
    | os_Stat p =>
        if listed p (unreadable fs) then ((None, Some (EACCES "stat" p)), fs)
        else match lookup p (nodes fs) with
             | Some _ => ((Some {| Name := p; Size := 0; Mode := 24960 |}, None), fs)
             | None => ((None, Some (ENOENT "stat" p)), fs)
             end
    | os_Remove p =>
        if listed p (busy fs) then (Some (EBUSY "remove" p), fs)
        else match lookup p (nodes fs) with
             | Some _ => (None, {| nodes := unlink p (nodes fs);
                                   unreadable := unreadable fs;
                                   busy := busy fs |})
             | None => (Some (ENOENT "remove" p), fs)
             end
    | logrus_Infof _ => (tt, fs)
    | logrus_Errorf _ => (tt, fs)
    end.

(** An empty file system; one with the node of a volume; the same with its
    directory closed to the caller; the same with the node in use. *)
Definition nofs : fakefs := {| nodes := []; unreadable := []; busy := [] |}.
Definition vol1fs : fakefs :=
  {| nodes := [("/dev/longhorn/vol1", 2049)]; unreadable := []; busy := [] |}.
Definition lockedfs : fakefs :=
  {| nodes := [("/dev/longhorn/vol1", 2049)];
     unreadable := ["/dev/longhorn/vol1"]; busy := [] |}.
Definition busyfs : fakefs :=
  {| nodes := [("/dev/longhorn/vol1", 2049)]; unreadable := [];
     busy := ["/dev/longhorn/vol1"] |}.

(* ===================================================================== *)
(** * Vocabulary of the statements                                        *)
(* ===================================================================== *)

(** The executor the first step of [Startup] or [Shutdown] is handed. *)
Definition executor {S : Type} (h : handler S) (w : World S)
    : NamespaceExecutorPtr :=
  fst (fst (h _ (NewNamespaceExecutor "/host/proc/1/ns/") (ext w))).

Definition with_Device {S : Type} (s : string) (w : World S) : World S :=
  {| heap := set_Device s (heap w); ext := ext w |}.

Definition AlreadyDownError : error := fmt_Errorf "SCSI Device is already down".

Definition IndexOutOfRange : string :=
  "runtime error: index out of range [0] with length 0".

Definition TimeoutError (path : string) : error :=
  fmt_Errorf ("Timeout trying to delete " ++ path ++ ".").

(** The test of [removeAsync]: an error that is not "does not exist". *)
Definition failed (err : goerror) : bool :=
  negb (isNil err) && negb (os_IsNotExist err).

(** What [RemoveDevice] makes of the result of [remove]. *)
Definition wrapped (dev : string) (err : goerror) : goerror :=
  match err with
  | Some e =>
      Some (fmt_Errorf ("Failed to removing device " ++ dev ++ ", " ++ Error e))
  | None => None
  end.

(** ** Program points

    The rest of [remove] once the channel is made, once the goroutine is
    started and once the timer is started; the rest of [removeAsync] once
    [os.Remove] has answered [err], once the failure is logged and once the
    failure is sent; the rest of [RemoveDevice] once [remove] has returned. *)
Definition remove_select (path : string) (done : chan) (timer : Z)
    : Prog goE goerror :=
  r <- trigger (Select done timer) ;;
  match r with
  | Received err => ret err
  | Expired => ret (Some (TimeoutError path))
  end.

Definition remove_timer (path : string) (done : chan) : Prog goE goerror :=
  timer <- trigger (time_After (30 * Second)) ;;
  remove_select path done timer.

Definition remove_go (path : string) (done : chan) : Prog goE goerror :=
  trigger (Go (removeAsync path done)) ;;
  remove_timer path done.

Definition removeAsync_removed (path : string) (done : chan) (err : goerror)
    : Prog goE unit :=
  (if failed err then
     sys (logrus_Errorf ("Unable to remove: " ++ path)) ;;
     trigger (Send done err)
   else ret tt) ;;
  trigger (Send done None).

Definition removeAsync_send (done : chan) (err : goerror) : Prog goE unit :=
  trigger (Send done err) ;;
  trigger (Send done None).

Definition removeAsync_last (done : chan) : Prog goE unit :=
  trigger (Send done None).

Definition RemoveDevice_removed (dev : string) (err : goerror)
    : Prog goE goerror :=
  match err with
  | Some e =>
      ret (Some (fmt_Errorf ("Failed to removing device " ++ dev ++ ", "
                               ++ Error e)))
  | None => ret None
  end.

(** The configuration [c] with its caller running inside a function that
    goes on with [f] once the caller's program returns. *)
Definition in_caller {S : Type} (f : goerror -> Prog goE goerror)
    (c : config S) : config S :=
  {| main := Prog_bind (main c) f; rest := rest c |}.

Unset Implicit Arguments.

(** ** The reachable configurations of [remove]

    [remove path] is started at time [t0] in a configuration with no
    goroutine, [done] channels made so far, the operating system in state
    [s0] and the log [l0]. *)
Section Reachable.
Context {S : Type} (h : syshandler S).
Variables (path : string) (t0 : Z) (done : chan) (s0 : S)
          (l0 : list (thread * syscall)).

(** What [os.Remove] answers, and the operating system and the log once
    it has answered and once the failure is logged. *)
Definition removed : goerror := fst (h _ (os_Remove path) s0).
Definition s_removed : S := snd (h _ (os_Remove path) s0).
Definition l_removed : list (thread * syscall) :=
  (l0 ++ [(Goroutine 0, SysCalled (os_Remove path) removed)])%list.
Definition s_logged : S :=
  snd (h _ (logrus_Errorf ("Unable to remove: " ++ path)) s_removed).
Definition l_logged : list (thread * syscall) :=
  (l_removed
     ++ [(Goroutine 0,
          SysCalled (logrus_Errorf ("Unable to remove: " ++ path)) tt)])%list.

(** What the goroutine's first send carries. *)
Definition sent : goerror := if failed removed then removed else None.

(** Where the goroutine is, with the operating system and the log it has
    left; the flag says whether its first send has been received. *)
Inductive GoAt : bool -> Prog goE unit -> S -> list (thread * syscall) -> Prop :=
| at_start : GoAt false (removeAsync path done) s0 l0
| at_removed :
    GoAt false (removeAsync_removed path done removed) s_removed l_removed
| at_send :
    failed removed = true ->
    GoAt false (removeAsync_send done removed) s_logged l_logged
| at_last :
    failed removed = true ->
    GoAt true (removeAsync_last done) s_logged l_logged
| at_end :
    failed removed = false ->
    GoAt true (Ret tt) s_removed l_removed.

(** Where the caller is, and the goroutine with it. *)
Inductive Inv : config S -> Prop :=
| in_start (t : Z) :
    t0 <= t ->
    Inv {| main := remove path;
           rest := {| pool := []; now := t; chans := done; os := s0;
                      syslog := l0 |} |}
| in_go (t : Z) :
    t0 <= t ->
    Inv {| main := remove_go path done;
           rest := {| pool := []; now := t; chans := Datatypes.S done;
                      os := s0; syslog := l0 |} |}
| in_timer (t : Z) (g : Prog goE unit) (s : S) (l : list (thread * syscall)) :
    t0 <= t ->
    GoAt false g s l ->
    Inv {| main := remove_timer path done;
           rest := {| pool := [g]; now := t; chans := Datatypes.S done;
                      os := s; syslog := l |} |}
| in_select (t ta : Z) (g : Prog goE unit) (s : S)
    (l : list (thread * syscall)) :
    t0 <= ta <= t ->
    GoAt false g s l ->
    Inv {| main := remove_select path done (ta + 30 * Second);
           rest := {| pool := [g]; now := t; chans := Datatypes.S done;
                      os := s; syslog := l |} |}
| in_received (t : Z) (g : Prog goE unit) (s : S)
    (l : list (thread * syscall)) :
    t0 <= t ->
    GoAt true g s l ->
    Inv {| main := Ret sent;
           rest := {| pool := [g]; now := t; chans := Datatypes.S done;
                      os := s; syslog := l |} |}
| in_timeout (t ta : Z) (g : Prog goE unit) (s : S)
    (l : list (thread * syscall)) :
    t0 <= ta ->
    ta + 30 * Second <= t ->
    GoAt false g s l ->
    Inv {| main := Ret (Some (TimeoutError path));
           rest := {| pool := [g]; now := t; chans := Datatypes.S done;
                      os := s; syslog := l |} |}.
End Reachable.

(** ** [RemoveDevice], once [os.Stat] has answered *)
Section Stat.
Context {S : Type} (h : syshandler S).
Variables (dev : string) (s : S) (l : list (thread * syscall)).

Definition stat_answer : option FileInfo * goerror :=
  fst (h _ (os_Stat dev) s).
Definition s_stat : S := snd (h _ (os_Stat dev) s).
Definition l_stat : list (thread * syscall) :=
  (l ++ [(Caller, SysCalled (os_Stat dev) stat_answer)])%list.
End Stat.

(* ===================================================================== *)
(** * Addresses                                                           *)
(* ===================================================================== *)

(** ** The regular expressions [ParseAddresses] needs

    The syntax of [regexp] as far as [parsePattern] uses it, matched on the
    bytes of the string.  A dot is any character but a newline, [\d] an
    ASCII digit, the star and the plus are greedy. *)
Inductive regexp : Type :=
| AnyCharNotNL
| Digit
| Literal (c : ascii)
| Concat (r1 r2 : regexp)
| Star (r : regexp)
| Plus (r : regexp)
| Capture (i : nat) (r : regexp).

(** A position in the subject: the text still ahead, the offset reached,
    and the spans of the groups closed so far, latest first. *)
Record cursor : Type := {
  ahead : string;
  offset : nat;
  groups : list (nat * (nat * nat))
}.

Definition isDigit (a : ascii) : bool :=
  (48 <=? nat_of_ascii a)%nat && (nat_of_ascii a <=? 57)%nat.

Definition newline : ascii := "010"%char.

Definition dot (a : ascii) : bool := negb (Ascii.eqb a newline).

(** One character of the class [p]. *)
Definition one (p : ascii -> bool) (c : cursor) : list cursor :=
  match ahead c with
  | String a s' =>
      if p a then [{| ahead := s'; offset := S (offset c); groups := groups c |}]
      else []
  | EmptyString => []
  end.

(** Greedy repetition: one more round first, as long as the round moved on;
    [n] bounds the rounds by the length of the text ahead. *)
Fixpoint star (r : cursor -> list cursor) (n : nat) (c : cursor) : list cursor :=
  match n with
  | O => [c]
  | S n' =>
      (flat_map (fun c' => if (offset c <? offset c')%nat then star r n' c' else [])
         (r c) ++ [c])%list
  end.

(** Every way [r] matches at [c], in the order of preference of a
    leftmost-first matcher: the first one is the match that is reported. *)
Fixpoint alts (r : regexp) (c : cursor) : list cursor :=
  match r with
  | AnyCharNotNL => one dot c
  | Digit => one isDigit c
  | Literal x => one (Ascii.eqb x) c
  | Concat r1 r2 => flat_map (alts r2) (alts r1 c)
  | Star r' => star (alts r') (String.length (ahead c)) c
  | Plus r' =>
      flat_map (fun c' => star (alts r') (String.length (ahead c')) c') (alts r' c)
  | Capture i r' =>
      map (fun c' => {| ahead := ahead c'; offset := offset c';
                        groups := (i, (offset c, offset c')) :: groups c' |})
        (alts r' c)
  end.

(** The leftmost match: the first offset from [start] on where [r] matches. *)
Fixpoint search (r : regexp) (s : string) (start : nat) : option (nat * cursor) :=
  match alts r {| ahead := s; offset := start; groups := [] |} with
  | c :: _ => Some (start, c)
  | [] =>
      match s with
      | String _ s' => search r s' (S start)
      | EmptyString => None
      end
  end.

Fixpoint group (i : nat) (gs : list (nat * (nat * nat))) : option (nat * nat) :=
  match gs with
  | [] => None
  | (j, span) :: gs' => if Nat.eqb i j then Some span else group i gs'
  end.

(** A compiled [*regexp.Regexp]: its source text (what [%v] prints), its
    syntax tree and the number of its groups. *)
Record Regexp : Type := { source : string; expr : regexp; NumSubexp : nat }.

(** [re.FindStringSubmatch(s)]: [None] is the nil slice; otherwise the text
    of the leftmost match followed by the text of each group. *)
Definition FindStringSubmatch (re : Regexp) (s : string) : option (list string) :=
  match search (expr re) s 0 with
  | Some (start, c) =>
      Some (substring start (offset c - start) s
            :: map (fun i => match group i (groups c) with
                             | Some (a, b) => substring a (b - a) s
                             | None => ""
                             end)
                 (seq 1 (NumSubexp re)))
  | None => None
  end.

Definition parsePattern : Regexp :=
  {| source := "(.*):(\d+)";
     expr := Concat (Capture 1 (Star AnyCharNotNL))
               (Concat (Literal ":") (Capture 2 (Plus Digit)));
     NumSubexp := 2 |}.

(** ** [strconv.Atoi] *)

Definition MaxInt64 : Z := 2 ^ 63 - 1.

Inductive NumError : Type := ErrSyntax | ErrRange.

(** An optional sign and decimal digits; a value that does not fit the
    [int] comes back as the nearest [int] together with [ErrRange]. *)
Definition Atoi (s : string) : Z * option NumError :=
  let syntax := Some ErrSyntax in
  let range := Some ErrRange in
  let '(neg, ds) := match s with
                    | String "+" r => (false, r)
                    | String "-" r => (true, r)
                    | _ => (false, s)
                    end in
  match ds, NilEmpty.uint_of_string ds with
  | String _ _, Some u =>
      let n := Z.of_uint u in
      if neg then (if n <=? 2 ^ 63 then (- n, None) else (- 2 ^ 63, range))
      else (if n <=? MaxInt64 then (n, None) else (MaxInt64, range))
  | _, _ => (0, syntax)
  end.

(** ** [ParseAddresses]

    The error of [strconv.Atoi] is dropped; [port+1] and [port+2] are [int]
    additions. *)
Definition ParseAddresses (name : string) : string * string * string * goerror :=
  match FindStringSubmatch parsePattern name with
  | None =>
      ("", "", "",
       Some (fmt_Errorf ("Invalid address " ++ name ++ " does not match pattern: "
                           ++ source parsePattern)))
  | Some matches =>
      let host := nth 1 matches "" in
      let port := fst (Atoi (nth 2 matches "")) in
      (host ++ ":" ++ itoa port,
       host ++ ":" ++ itoa (int64 (port + 1)),
       host ++ ":" ++ itoa (int64 (port + 2)), None)
  end.

(** ** Vocabulary for addresses *)

(** Every character of [s] is in the class [p]; [s] begins with one. *)
Fixpoint all (p : ascii -> bool) (s : string) : bool :=
  match s with
  | String a s' => p a && all p s'
  | EmptyString => true
  end.

Definition starts (p : ascii -> bool) (s : string) : bool :=
  match s with
  | String a _ => p a
  | EmptyString => false
  end.

(** [s] begins with a colon and a digit; [s] has a colon directly followed
    by a digit somewhere. *)
Definition port_here (s : string) : bool :=
  match s with
  | String a (String d _) => Ascii.eqb ":" a && isDigit d
  | _ => false
  end.

Fixpoint has_port (s : string) : bool :=
  match s with
  | String _ s' => port_here s || has_port s'
  | EmptyString => false
  end.

(** The number a string of decimal digits denotes. *)
Definition decimal (ds : string) : Z :=
  match NilEmpty.uint_of_string ds with
  | Some u => Z.of_uint u
  | None => 0
  end.

(** ** The matcher on [parsePattern], step by step *)

Definition cur (s : string) (o : nat) (g : list (nat * (nat * nat))) : cursor :=
  {| ahead := s; offset := o; groups := g |}.

(** What the greedy repetition of a character class yields: the cursor
    after the longest run first, the starting cursor last. *)
Fixpoint run_of (p : ascii -> bool) (s : string) (o : nat)
    (g : list (nat * (nat * nat))) : list cursor :=
  match s with
  | String a s' =>
      if p a then (run_of p s' (S o) g ++ [cur s o g])%list else [cur s o g]
  | EmptyString => [cur "" o g]
  end.

Definition close (i o0 : nat) (c' : cursor) : cursor :=
  {| ahead := ahead c'; offset := offset c';
     groups := (i, (o0, offset c')) :: groups c' |}.

(** The rest of the pattern once group 1, opened at [o0], ends at [c]. *)
Definition tailpat : regexp := Concat (Literal ":") (Capture 2 (Plus Digit)).

Definition try_port (o0 : nat) (c : cursor) : list cursor :=
  alts tailpat (close 1 o0 c).

(* ===================================================================== *)
(** * Slices of strings                                                   *)
(* ===================================================================== *)

(** The loop of [Filter], with [result] as its accumulator. *)
Definition Filter (list : list string) (check_ : string -> bool)
  : Datatypes.list string :=
  fold_left (fun result i => if check_ i then (result ++ [i])%list else result)
    list [].

(** The loop of [Contains] returns at the first element equal to [val]. *)
Fixpoint Contains (arr : list string) (val : string) : bool :=
  match arr with
  | [] => false
  | a :: arr' => if String.eqb a val then true else Contains arr' val
  end.

(* ===================================================================== *)
(** * The filtered logging handler                                        *)
(* ===================================================================== *)

Module StringMap := FMapList.Make OrderedTypeEx.String_as_OT.
Module StringMapFacts := FMapFacts.Facts StringMap.

Module Http.

(** [http.Request], as far as this file reads it, and the rest of it. *)
Record URL : Type := { Path : string; RawQuery : string }.
Record Request : Type := { Method : string; Url : URL; Body : string }.

(** An [http.Handler] is a collaborator: the router, or the handler that
    [handlers.LoggingHandler] builds around a writer and a handler. *)
Inductive Handler : Type :=
| Router (name : string)
| LoggingHandler (writer : string) (h : Handler).

Inductive httpE : Type -> Type :=
| Handler_ServeHTTP (h : Handler) (w : string) (req : Request) : httpE unit.

Record filteredLoggingHandler : Type := {
  filteredPaths : StringMap.t unit;
  handler : Handler;
  loggingHandler : Handler
}.

Definition FilteredLoggingHandler (filteredPaths : StringMap.t unit)
    (writer : string) (router : Handler) : filteredLoggingHandler :=
  {| filteredPaths := filteredPaths;
     handler := router;
     loggingHandler := LoggingHandler writer router |}.

(** [returned] says whether the [switch] left through its [return]. *)
Definition ServeHTTP (h : filteredLoggingHandler) (w : string) (req : Request)
  : Prog httpE unit :=
  returned <-
    (if String.eqb (Method req) "GET" then
       match StringMap.find (Path (Url req)) (filteredPaths h) with
       | Some _ => trigger (Handler_ServeHTTP (handler h) w req) ;; ret true
       | None => ret false
       end
     else ret false) ;;
  if (returned : bool) then ret tt
  else trigger (Handler_ServeHTTP (loggingHandler h) w req).

(** The handlers have a state of their own; the log records which handler
    was called, with which response writer and which request. *)
Definition handleHTTP {W : Type} (serve : Handler -> string -> Request -> W -> W)
    (X : Type) (e : httpE X) (s : W)
    : X * W * list (Handler * string * Request) :=
  match e in httpE X return X * W * list (Handler * string * Request) with
  | Handler_ServeHTTP h w req => (tt, serve h w req s, [(h, w, req)])
  end.

End Http.

(* ===================================================================== *)
(** * More vocabulary                                                     *)
(* ===================================================================== *)


(** The call of [Shutdown] that takes back what a call of [Startup] set
    up, with the executor [ne] of the [Shutdown]; nothing for the calls
    that set nothing up. *)
Definition teardown_of (ne : NamespaceExecutorPtr) (c : call) : list call :=
  match c with
  | Call (CreateTarget tid _) => [Call (DeleteTarget tid)]
  | Call (AddLun tid lun _ _ _) => [Call (DeleteLun tid lun)]
  | Call (BindInitiator tid initiator) => [Call (UnbindInitiator tid initiator)]
  | Call (DiscoverTarget ip target _) => [Call (DeleteDiscoveredTarget ip target ne)]
  | Call (LoginTarget ip target _) => [Call (LogoutTarget ip target ne)]
  | Call _ => []
  end.

(** The device number of [mknod] before its conversions to [int]. *)
Definition mkdev_bits (major minor : Z) : Z :=
  Z.lor (Z.lor (Z.shiftl major 8) (Z.land minor 0xff))
    (Z.shiftl (Z.land minor 0xfff00) 12).

(* ===================================================================== *)
(** * Proofs: the lifecycle of a ScsiDevice                               *)
(* ===================================================================== *)

(** Case analysis on the next answer of the collaborators [h]. *)
Ltac answer h :=
  match goal with
  | |- context [h ?X ?c ?s] =>
      let x := fresh "x" in
      let s' := fresh "s" in
      destruct (h X c s) as [x s'] eqn:?;
      lazymatch type of x with
      | (_ * _)%type => let a := fresh "a" in destruct x as [a x]
      | _ => idtac
      end;
      destruct x as [?e |]; cbn
  end.

(** The run is over: read off what it returned. *)
Ltac ran :=
  lazymatch goal with
  | |- (_, _, _) = _ -> _ =>
      let H := fresh "Hrun" in
      intros H; first [discriminate H | inversion H; subst; clear H; cbn]
  end.

Section Lifecycle.
Context {S : Type} (h : handler S).

Lemma NewScsiDevice_resolution_error (name backingFile bsType bsOpts : string)
    (w : World S) (ips : list string) (e : error) (s' : S) :
  h _ GetLocalIPs (ext w) = ((ips, Some e), s') ->
  runDev h (NewScsiDevice name backingFile bsType bsOpts) w
    = (Returned (None, Some e), {| heap := heap w; ext := s' |},
       [Called GetLocalIPs (ips, Some e)]).
Proof.
  intros H. unfold runDev, NewScsiDevice. cbn. rewrite H. reflexivity.
Qed.

Lemma NewScsiDevice_first_address (name backingFile bsType bsOpts : string)
    (w : World S) (ip : string) (ips : list string) (s' : S) :
  h _ GetLocalIPs (ext w) = ((ip :: ips, None), s') ->
  exists dev,
    runDev h (NewScsiDevice name backingFile bsType bsOpts) w
      = (Returned (Some dev, None), {| heap := heap w; ext := s' |},
         [Called GetLocalIPs (ip :: ips, None)])
    /\ Portal dev = ip
    /\ Target dev = "iqn.2014-07.com.rancher:" ++ name
    /\ TargetID dev = 1 /\ LunID dev = 1 /\ Device dev = ""
    /\ BackingFile dev = backingFile /\ BSType dev = bsType
    /\ BSOpts dev = bsOpts.
Proof.
  intros H. unfold runDev, NewScsiDevice. cbn. rewrite H. cbn.
  eexists. split; [reflexivity |]. cbn. repeat split.
Qed.

Lemma NewScsiDevice_Device (name backingFile bsType bsOpts : string)
    (w w' : World S) (dev : ScsiDevice) (err : goerror) (l : list action) :
  runDev h (NewScsiDevice name backingFile bsType bsOpts) w
    = (Returned (Some dev, err), w', l) ->
  Device dev = "".
Proof.
  unfold runDev, NewScsiDevice. cbn.
  destruct (h _ GetLocalIPs (ext w)) as [[ips [e |]] s1]; cbn;
    [discriminate |].
  destruct ips; cbn; [discriminate |].
  intros H. injection H as <- _ _ _. reflexivity.
Qed.

Lemma Shutdown_success_Device (w w' : World S) (l : list action) :
  runDev h Shutdown w = (Returned None, w', l) -> Device (heap w') = "".
Proof.
  unfold runDev, Shutdown. cbn.
  destruct (String.eqb_spec (Device (heap w)) ""); cbn; [discriminate |].
  repeat (answer h; try ran); try ran; try discriminate.
  reflexivity.
Qed.

(** C1, at the input the code mishandles.  When [GetLocalIPs] reports no
    address by handing back an empty list and a nil error,
    [NewScsiDevice] does not return an error: indexing [ips[0]] panics. *)
Theorem NewScsiDevice_no_address (name backingFile bsType bsOpts : string)
    (w : World S) (s' : S) :
  h _ GetLocalIPs (ext w) = (([], None), s') ->
  runDev h (NewScsiDevice name backingFile bsType bsOpts) w
    = (Panicked IndexOutOfRange, {| heap := heap w; ext := s' |},
       [Called GetLocalIPs ([], None)]).
Proof.
  intros H. unfold runDev, NewScsiDevice. cbn. rewrite H. reflexivity.
Qed.

(** C5.  [Startup] makes its calls in the order of [Startup_steps] and
    stops at the first one that fails: the calls made are an initial
    segment of the nine steps, every call but the last returned nil,
    [Startup] returns exactly what the last call returned, and when that
    is nil all nine steps were made. *)
Theorem Startup_steps_in_order (w w' : World S) (o : outcome goerror)
    (l : list action) :
  runDev h Startup w = (o, w', l) ->
  calls l = firstn (length (calls l)) (Startup_steps (heap w) (executor h w))
  /\ calls l <> []
  /\ Forall (fun err => err = None) (removelast (errors l))
  /\ o = Returned (last (errors l) None)
  /\ (last (errors l) None = None ->
      calls l = Startup_steps (heap w) (executor h w)).
Proof.
  unfold runDev, Startup, executor. cbn.
  repeat (answer h; try ran); try ran.
  all: repeat split; try discriminate; try reflexivity;
    repeat constructor.
Qed.

(** C9.  [Startup] never looks at [Device]: its first action is the call
    to [NewNamespaceExecutor] whatever the device holds, the run from a
    device that differs only in [Device] returns the same value after the
    same log, and a successful run made all nine calls and left in
    [Device] the path that [GetDevice] returned. *)
Theorem Startup_has_no_guard (w w' : World S) (o : outcome goerror)
    (l : list action) :
  runDev h Startup w = (o, w', l) ->
  (exists ne l',
      l = Called (NewNamespaceExecutor "/host/proc/1/ns/") ne :: l')
  /\ (forall s,
        exists w2, runDev h Startup (with_Device s w) = (o, w2, l)
                   /\ ext w2 = ext w')
  /\ (o = Returned None ->
      exists path,
        calls l = Startup_steps (heap w) (executor h w)
        /\ Forall (fun err => err = None) (errors l)
        /\ last l (Stored "") = Stored path
        /\ In (Called (GetDevice (Portal (heap w)) (Target (heap w))
                         (LunID (heap w)) (executor h w)) (path, None)) l
        /\ heap w' = set_Device path (heap w)).
Proof.
  unfold runDev, Startup, executor, with_Device. cbn.
  repeat (answer h; try ran); try ran.
  all: repeat split; try discriminate; eauto.
  all: try (intros s; eexists; split; reflexivity).
  intros _. eexists. repeat split; cbn; eauto 15; repeat constructor.
Qed.
End Lifecycle.

Section Teardown.
Context {S : Type} (h : handler S).

(** C2, as amended.  From a device with [Device == ""], a [Startup] that
    fails in one of its first eight steps leaves [Device] empty; one that
    fails in the ninth has stored in [Device] the path that [GetDevice]
    returned together with its error. *)
Theorem Startup_failure_Device (w w' : World S) (e : error)
    (l : list action) :
  Device (heap w) = "" ->
  runDev h Startup w = (Returned (Some e), w', l) ->
  (length (calls l) <= 9)%nat
  /\ ((length (calls l) < 9)%nat -> Device (heap w') = "")
  /\ ((length (calls l) = 9)%nat ->
      exists path,
        In (Called (GetDevice (Portal (heap w)) (Target (heap w))
                      (LunID (heap w)) (executor h w)) (path, Some e)) l
        /\ last l (Stored "") = Stored path
        /\ Device (heap w') = path).
Proof.
  intros Hdown.
  unfold runDev, Startup, executor. cbn.
  repeat (answer h; try ran); try ran; try discriminate.
  all: repeat split; cbn; intros; try lia; try assumption.
  eexists. repeat split; cbn; eauto 15.
Qed.

(** C3.  On a device that is up, [Shutdown] returns what its last call
    returned and makes its calls in the order of [Shutdown_steps],
    stopping at the first failure.  Either the logout succeeded: then the
    log continues with the assignment [Device = ""] and next with the call
    to [DeleteDiscoveredTarget], nothing is stored after that, and the
    device ends with [Device == ""] whatever the later steps returned; or
    one of the first three calls failed: then nothing was stored and the
    device is as it was. *)
Theorem Shutdown_clears_Device_after_logout (w w' : World S)
    (o : outcome goerror) (l : list action) :
  Device (heap w) <> "" ->
  runDev h Shutdown w = (o, w', l) ->
  let dev := heap w in
  let ne := executor h w in
  o = Returned (last (errors l) None)
  /\ calls l = firstn (length (calls l)) (Shutdown_steps dev ne)
  /\ Forall (fun err => err = None) (removelast (errors l))
  /\ ((exists l',
         l = ([ Called (NewNamespaceExecutor "/host/proc/1/ns/") (ne, None);
                Called (CheckForInitiatorExistence ne) None;
                Called (LogoutTarget (Portal dev) (Target dev) ne) None;
                Stored "" ] ++ l')%list
         /\ (exists err l'',
               l' = Called (DeleteDiscoveredTarget (Portal dev) (Target dev) ne)
                      err :: l'')
         /\ (forall s, ~ In (Stored s) l')
         /\ heap w' = set_Device "" dev)
      \/ (last (errors l) None <> None
          /\ (length (calls l) <= 3)%nat
          /\ (forall s, ~ In (Stored s) l)
          /\ heap w' = dev)).
Proof.
  intros Hup.
  unfold runDev, Shutdown, executor. cbn.
  destruct (String.eqb_spec (Device (heap w)) ""); [contradiction |]. cbn.
  repeat (answer h; try ran); try ran.
  all: split; [reflexivity |]; split; [reflexivity |];
    split; [repeat constructor |].
  all: first
    [ solve [ right; repeat split; cbn; try discriminate; try lia;
              intuition discriminate ]
    | left; eexists; split; [reflexivity |];
      split; [do 2 eexists; reflexivity |];
      split; [cbn; intuition discriminate | reflexivity] ].
Qed.

(** C4.  On a device that is down, that is, one whose [Device] is empty,
    one that a successful [Shutdown] left, or one that [NewScsiDevice]
    just built, [Shutdown] returns the already-down error, calls no
    collaborator and changes nothing. *)
Theorem Shutdown_already_down (w : World S) :
  Device (heap w) = ""
  \/ (exists w0 l, runDev h Shutdown w0 = (Returned None, w, l))
  \/ (exists name backingFile bsType bsOpts w0 w1 l,
        runDev h (NewScsiDevice name backingFile bsType bsOpts) w0
          = (Returned (Some (heap w), None), w1, l)) ->
  runDev h Shutdown w = (Returned (Some AlreadyDownError), w, []).
Proof.
  intros H.
  assert (Hdown : Device (heap w) = "").
  { destruct H as [H | [(w0 & l & H) | (n & b & t & o & w0 & w1 & l & H)]].
    - exact H.
    - exact (Shutdown_success_Device h w0 w l H).
    - exact (NewScsiDevice_Device h n b t o w0 w1 (heap w) None l H). }
  unfold runDev, Shutdown. cbn. rewrite Hdown. reflexivity.
Qed.
End Teardown.

(** C2, as stated, fails: the collaborators below succeed eight times, then
    [GetDevice] hands back a path together with an error; [Startup] returns
    that error and the device, which was down, now holds the path. *)
Lemma Startup_failure_sets_Device :
  exists (w w' : World nat) (e : error) (l : list action),
    Device (heap w) = ""
    /\ runDev (scripted (Some 8%nat) ["10.0.0.5"] "/dev/sdb") Startup w
       = (Returned (Some e), w', l)
    /\ Device (heap w') = "/dev/sdb".
Proof.
  exists {| heap := vol1; ext := 0%nat |}. do 3 eexists.
  split; [reflexivity |]. split; reflexivity.
Qed.

(** ** Concrete runs *)

(** No address and no error from [GetLocalIPs]: the constructor panics. *)
Lemma NewScsiDevice_no_address_witness :
  runDev (scripted None [] "/dev/sdb")
    (NewScsiDevice "vol1" "/var/lib/vol1.img" "longhorn" "") down1
  = (Panicked IndexOutOfRange, {| heap := vol1; ext := 1%nat |},
     [Called GetLocalIPs ([], None)]).
Proof.
  exact (NewScsiDevice_no_address (scripted None [] "/dev/sdb") "vol1"
           "/var/lib/vol1.img" "longhorn" "" down1 1%nat eq_refl).
Defined.

(** [AddLun], the fifth step, fails: five calls, and its error comes back. *)
Lemma Startup_steps_in_order_witness :
  exists o w' l,
    runDev (scripted (Some 4%nat) ["10.0.0.5"] "/dev/sdb") Startup down1
      = (o, w', l)
    /\ length (calls l) = 5%nat
    /\ last (errors l) None = Some boom
    /\ o = Returned (last (errors l) None).
Proof.
  do 3 eexists. split; [reflexivity |].
  split; [reflexivity |]. split; [reflexivity |].
  exact (proj1 (proj2 (proj2 (proj2
           (Startup_steps_in_order
              (scripted (Some 4%nat) ["10.0.0.5"] "/dev/sdb")
              down1 _ _ _ eq_refl))))).
Defined.

(** A device that is already up is started again: nine calls, and the new
    path replaces the old one. *)
Lemma Startup_has_no_guard_witness :
  exists w' l,
    runDev (scripted None ["10.0.0.5"] "/dev/sdc") Startup up1
      = (Returned None, w', l)
    /\ Device (heap up1) = "/dev/sdb"
    /\ Device (heap w') = "/dev/sdc"
    /\ exists ne l',
         l = Called (NewNamespaceExecutor "/host/proc/1/ns/") ne :: l'.
Proof.
  do 2 eexists. split; [reflexivity |].
  split; [reflexivity |]. split; [reflexivity |].
  exact (proj1 (Startup_has_no_guard
                  (scripted None ["10.0.0.5"] "/dev/sdc")
                  up1 _ _ _ eq_refl)).
Defined.

(** [CreateTarget], the fourth step, fails: [Device] stays empty. *)
Lemma Startup_failure_Device_witness :
  exists w' l,
    Device (heap down1) = ""
    /\ runDev (scripted (Some 3%nat) ["10.0.0.5"] "/dev/sdb") Startup down1
       = (Returned (Some boom), w', l)
    /\ (length (calls l) <= 9)%nat.
Proof.
  do 2 eexists. split; [reflexivity |]. split; [reflexivity |].
  exact (proj1 (Startup_failure_Device
                  (scripted (Some 3%nat) ["10.0.0.5"] "/dev/sdb")
                  down1 _ boom _ eq_refl eq_refl)).
Defined.

(** [UnbindInitiator] fails after the logout: the error comes back and the
    device is already down. *)
Lemma Shutdown_clears_Device_after_logout_witness :
  exists o w' l,
    Device (heap up1) <> ""
    /\ runDev (scripted (Some 4%nat) ["10.0.0.5"] "/dev/sdb") Shutdown up1
       = (o, w', l)
    /\ Device (heap w') = ""
    /\ last (errors l) None = Some boom
    /\ o = Returned (last (errors l) None).
Proof.
  do 3 eexists. split; [discriminate |]. split; [reflexivity |].
  split; [reflexivity |]. split; [reflexivity |].
  refine (proj1 (Shutdown_clears_Device_after_logout
                   (scripted (Some 4%nat) ["10.0.0.5"] "/dev/sdb")
                   up1 _ _ _ _ eq_refl)).
  discriminate.
Defined.

(** The second [Shutdown] after a successful one. *)
Lemma Shutdown_already_down_witness :
  exists w l,
    runDev (scripted None ["10.0.0.5"] "/dev/sdb") Shutdown up1
      = (Returned None, w, l)
    /\ runDev (scripted None ["10.0.0.5"] "/dev/sdb") Shutdown w
       = (Returned (Some AlreadyDownError), w, []).
Proof.
  do 2 eexists. split; [reflexivity |].
  apply Shutdown_already_down. right. left.
  exists up1. eexists. reflexivity.
Defined.

(* ===================================================================== *)
(** * Proofs: device numbers                                              *)
(* ===================================================================== *)

Lemma int64_small (z : Z) : - 2 ^ 63 <= z < 2 ^ 63 -> int64 z = z.
Proof.
  intros H. unfold int64. rewrite Z.mod_small; lia.
Qed.

Lemma int64_mod (z : Z) : int64 z mod 2 ^ 64 = z mod 2 ^ 64.
Proof.
  unfold int64. rewrite Zminus_mod_idemp_l. f_equal. lia.
Qed.

Lemma int64_congr (a b : Z) :
  a mod 2 ^ 64 = b mod 2 ^ 64 -> int64 a = int64 b.
Proof.
  intros H. unfold int64.
  rewrite <- (Zplus_mod_idemp_l a), H, Zplus_mod_idemp_l. reflexivity.
Qed.

Lemma int64_mul_256 (q : Z) : int64 (q * 256) mod 256 = 0.
Proof.
  unfold int64.
  pose proof (Z.div_mod (q * 256 + 2 ^ 63) (2 ^ 64)) as E.
  set (k := (q * 256 + 2 ^ 63) / 2 ^ 64) in *.
  replace ((q * 256 + 2 ^ 63) mod 2 ^ 64 - 2 ^ 63)
    with ((q - 2 ^ 56 * k) * 256) by lia.
  apply Z.mod_mul. lia.
Qed.

Lemma uint64_int64 (r : Z) : 0 <= r < 2 ^ 64 -> uint64 (int64 r) = r.
Proof.
  intros Hr. unfold uint64. rewrite int64_mod. apply Z.mod_small. exact Hr.
Qed.

(** A minor below 256 has none of the bits of [0xfff00]. *)
Lemma land_high_minor (m : Z) : 0 <= m < 256 -> Z.land m 0xfff00 = 0.
Proof.
  intros Hm. apply Z.bits_inj'. intros n Hn.
  rewrite Z.land_spec, Z.bits_0.
  destruct (Z.ltb_spec n 8).
  - replace (Z.testbit 0xfff00 n) with false; [apply andb_false_r |].
    assert (n = 0 \/ n = 1 \/ n = 2 \/ n = 3 \/ n = 4 \/ n = 5 \/ n = 6
            \/ n = 7) by lia.
    intuition (subst; reflexivity).
  - rewrite (Z.bits_above_log2 m n); [reflexivity | lia |].
    destruct (Z.eq_dec m 0) as [E | E]; [rewrite E; cbn; lia |].
    apply Z.log2_lt_pow2; [lia |].
    apply Z.lt_le_trans with (2 ^ 8); [exact (proj2 Hm) |].
    apply Z.pow_le_mono_r; lia.
Qed.

(** Or-ing a byte into a multiple of 256 adds it. *)
Lemma lor_low_byte (a b : Z) :
  a mod 256 = 0 -> 0 <= b < 256 -> Z.lor a b = a + b.
Proof.
  intros Ha Hb.
  assert (Hland : Z.land a b = 0).
  { replace b with (Z.land b (Z.ones 8)).
    - rewrite (Z.land_comm b), Z.land_assoc, Z.land_ones by lia.
      change (2 ^ 8) with 256. rewrite Ha. apply Z.land_0_l.
    - rewrite Z.land_ones by lia. apply Z.mod_small. exact Hb. }
  rewrite <- Z.lxor_lor by exact Hland.
  symmetry. apply Z.add_nocarry_lxor. exact Hland.
Qed.

(** The number [mknod] builds from the two halves of [r] is [r] again, as
    an [int]. *)
Lemma mkdev_split (r : Z) :
  0 <= r < 2 ^ 64 -> mkdev (r / 256) (r mod 256) = int64 r.
Proof.
  intros Hr.
  assert (Hm : 0 <= r mod 256 < 256) by (apply Z.mod_pos_bound; lia).
  unfold mkdev.
  rewrite (land_high_minor _ Hm).
  rewrite Z.shiftl_0_l. change (int64 0) with 0. rewrite Z.lor_0_r.
  replace (Z.land (r mod 256) 255) with (r mod 256).
  2:{ change 255 with (Z.ones 8). rewrite Z.land_ones by lia.
      symmetry. apply Z.mod_small. exact Hm. }
  rewrite Z.shiftl_mul_pow2 by lia. change (2 ^ 8) with 256.
  rewrite lor_low_byte.
  - apply int64_congr.
    rewrite <- Zplus_mod_idemp_l, int64_mod, Zplus_mod_idemp_l.
    f_equal. pose proof (Z.div_mod r 256). lia.
  - apply int64_mul_256.
  - exact Hm.
Qed.

Section DeviceNodes.
Context {S : Type} (h : syshandler S).

(** C6.  When the stat of [src] succeeds with device identifier [Rdev],
    [DuplicateDevice] goes on as [mknod dest (Rdev / 256) (Rdev mod 256)]:
    it logs that pair and calls [unix.Mknod] on [dest] with mode
    [S_IFBLK | 0600] and a device number [dev] whose extended-minor term
    is zero and which is [Rdev] again: the same 64 bits, and the same
    number whenever [Rdev] fits the signed [int]. *)
Theorem DuplicateDevice_same_number (src dest : string) (s s1 : S)
    (stat : Stat_t) :
  h _ (unix_Stat src) s = ((stat, None), s1) ->
  0 <= Rdev stat < 2 ^ 64 ->
  let major := Rdev stat / 256 in
  let minor := Rdev stat mod 256 in
  exists (dev : Z) (err : goerror) (s3 : S),
    runSys h (DuplicateDevice src dest) s
      = (Returned err, s3,
         [ SysCalled (unix_Stat src) (stat, None);
           SysCalled (logrus_Infof ("Creating device " ++ dest ++ " "
                                      ++ itoa major ++ ":" ++ itoa minor)) tt;
           SysCalled (unix_Mknod dest 24960 dev) err ])
    /\ runSys h (mknod dest major minor) s1
       = (Returned err, s3,
          [ SysCalled (logrus_Infof ("Creating device " ++ dest ++ " "
                                       ++ itoa major ++ ":" ++ itoa minor)) tt;
            SysCalled (unix_Mknod dest 24960 dev) err ])
    /\ dev = mkdev major minor
    /\ Z.shiftl (Z.land minor 0xfff00) 12 = 0
    /\ uint64 dev = Rdev stat
    /\ (Rdev stat < 2 ^ 63 -> dev = Rdev stat).
Proof.
  intros Hstat Hr major minor.
  assert (Hq : 0 <= Rdev stat / 256 < 2 ^ 56).
  { split; [apply Z.div_pos; lia | apply Z.div_lt_upper_bound; lia]. }
  assert (Hm : 0 <= Rdev stat mod 256 < 256) by (apply Z.mod_pos_bound; lia).
  pose proof (mkdev_split _ Hr) as Hdev.
  unfold runSys, DuplicateDevice, mknod. cbn.
  unfold handleSys at 1. rewrite Hstat. cbn.
  rewrite (int64_small (Rdev stat / 256)) by lia.
  rewrite (int64_small (Rdev stat mod 256)) by lia.
  fold major minor. fold major minor in Hdev.
  unfold handleSys.
  destruct (h _ (logrus_Infof _) s1) as [[] s2].
  destruct (h _ (unix_Mknod _ _ _) s2) as [err s3] eqn:Hmk.
  exists (mkdev major minor), err, s3.
  split; [destruct err; reflexivity |].
  split; [reflexivity |].
  split; [reflexivity |].
  split.
  { unfold minor. rewrite (land_high_minor _ Hm). reflexivity. }
  split.
  { rewrite Hdev. apply uint64_int64. exact Hr. }
  intros Hlt. rewrite Hdev. apply int64_small. lia.
Qed.
End DeviceNodes.

(** The device 8:1 is duplicated with the number 2049 it came with. *)
Example DuplicateDevice_8_1 :
  exists fs,
    runSys fakeos (DuplicateDevice "/dev/sdb" "/dev/longhorn/vol1")
      {| nodes := [("/dev/sdb", 2049)]; unreadable := []; busy := [] |}
    = (Returned None, fs,
       [ SysCalled (unix_Stat "/dev/sdb") ({| Rdev := 2049 |}, None);
         SysCalled (logrus_Infof "Creating device /dev/longhorn/vol1 8:1") tt;
         SysCalled (unix_Mknod "/dev/longhorn/vol1" 24960 2049) None ])
    /\ lookup "/dev/longhorn/vol1" (nodes fs) = Some 2049.
Proof.
  eexists. split; reflexivity.
Qed.

Lemma DuplicateDevice_same_number_witness :
  fakeos (unix_Stat "/dev/sdb")
    {| nodes := [("/dev/sdb", 2049)]; unreadable := []; busy := [] |}
  = (({| Rdev := 2049 |}, None),
     {| nodes := [("/dev/sdb", 2049)]; unreadable := []; busy := [] |})
  /\ exists dev err fs,
       runSys fakeos (DuplicateDevice "/dev/sdb" "/dev/longhorn/vol1")
         {| nodes := [("/dev/sdb", 2049)]; unreadable := []; busy := [] |}
       = (Returned err, fs,
          [ SysCalled (unix_Stat "/dev/sdb") ({| Rdev := 2049 |}, None);
            SysCalled
              (logrus_Infof ("Creating device " ++ "/dev/longhorn/vol1" ++ " "
                               ++ itoa (2049 / 256) ++ ":"
                               ++ itoa (2049 mod 256))) tt;
            SysCalled (unix_Mknod "/dev/longhorn/vol1" 24960 dev) err ])
       /\ uint64 dev = 2049
       /\ dev = 2049.
Proof.
  split; [reflexivity |].
  destruct (DuplicateDevice_same_number fakeos "/dev/sdb" "/dev/longhorn/vol1"
              {| nodes := [("/dev/sdb", 2049)]; unreadable := []; busy := [] |}
              _ {| Rdev := 2049 |} eq_refl)
    as (dev & err & s3 & Hrun & _ & _ & _ & Hu & Hs).
  - cbn. lia.
  - exists dev, err, s3. split; [exact Hrun |]. split; [exact Hu |].
    apply Hs. cbn. lia.
Defined.

(* ===================================================================== *)
(** * Proofs: bounded-time removal                                        *)
(* ===================================================================== *)

(** Keep the texts of the messages folded while computing. *)
#[local] Arguments String.append _ _ : simpl never.

Section Removal.
Context {S : Type} (h : syshandler S).
Variables (path : string) (t0 : Z) (done : chan) (s0 : S)
          (l0 : list (thread * syscall)).

Local Abbreviation rm := (removed h path s0).
Local Abbreviation s_rm := (s_removed h path s0).
Local Abbreviation l_rm := (l_removed h path s0 l0).
Local Abbreviation s_lg := (s_logged h path s0).
Local Abbreviation l_lg := (l_logged h path s0 l0).
Local Abbreviation goAt := (GoAt h path done s0 l0).
Local Abbreviation inv := (Inv h path t0 done s0 l0).

Lemma removed_eq : h _ (os_Remove path) s0 = (rm, s_rm).
Proof. unfold removed, s_removed. apply surjective_pairing. Qed.

Lemma logged_eq :
  h _ (logrus_Errorf ("Unable to remove: " ++ path)) s_rm = (tt, s_lg).
Proof.
  unfold s_logged.
  destruct (h _ (logrus_Errorf ("Unable to remove: " ++ path)) s_rm)
    as [[] s2].
  reflexivity.
Qed.

(** A step of the goroutine on its own. *)
Lemma GoAt_run (b : bool) (g g' : Prog goE unit) (s : S)
    (l : list (thread * syscall)) (p : list (Prog goE unit)) (t : Z)
    (n : nat) (sh' : shared S) :
  goAt b g s l ->
  advance h (Goroutine 0) g
    {| pool := p; now := t; chans := n; os := s; syslog := l |}
    = Some (g', sh') ->
  exists s' l',
    goAt b g' s' l'
    /\ sh' = {| pool := p; now := t; chans := n; os := s'; syslog := l' |}.
Proof.
  intros HG Ha. destruct HG.
  - unfold removeAsync in Ha. cbn in Ha. rewrite removed_eq in Ha.
    injection Ha as <- <-.
    exists s_rm, l_rm. split; [apply at_removed | reflexivity].
  - unfold removeAsync_removed in Ha.
    destruct (failed rm) eqn:F; cbn in Ha; [| discriminate].
    rewrite logged_eq in Ha. injection Ha as <- <-.
    exists s_lg, l_lg. split; [apply at_send; exact F | reflexivity].
  - discriminate.
  - discriminate.
  - discriminate.
Qed.

(** The goroutine's first send. *)
Lemma GoAt_send (g g' : Prog goE unit) (s : S)
    (l : list (thread * syscall)) (ch : chan) (v : goerror) :
  goAt false g s l -> sending g = Some (ch, v, g') ->
  ch = done /\ v = sent h path s0 /\ goAt true g' s l
  /\ In (Goroutine 0, SysCalled (os_Remove path) rm) l.
Proof.
  intros HG Hs. inversion HG; subst; cbn in Hs.
  - discriminate.
  - unfold removeAsync_removed in Hs.
    destruct (failed rm) eqn:F; cbn in Hs; [discriminate |].
    injection Hs as <- <- <-. unfold sent. rewrite F.
    repeat split; [apply at_end; exact F |].
    unfold l_removed. apply in_or_app. right. left. reflexivity.
  - injection Hs as <- <- <-. unfold sent.
    match goal with F : failed rm = true |- _ => rewrite F end.
    repeat split; [apply at_last; assumption |].
    unfold l_logged, l_removed. apply in_or_app. left.
    apply in_or_app. right. left. reflexivity.
Qed.


(** A goroutine that has finished had no failure to report, and its nil
    was received. *)
Lemma GoAt_finished (b : bool) (s : S) (l : list (thread * syscall)) :
  goAt b (Ret tt) s l -> b = true /\ failed rm = false /\ l = l_rm.
Proof.
  intros HG. remember (Ret tt : Prog goE unit) as g eqn:Eg.
  destruct HG.
  - unfold removeAsync in Eg. cbn in Eg. discriminate.
  - unfold removeAsync_removed in Eg.
    destruct (failed rm); cbn in Eg; discriminate.
  - discriminate.
  - discriminate.
  - auto.
Qed.

Ltac goroutine_runs H :=
  match goal with
  | Hs : context [nth_error [?g] ?i] |- _ =>
      destruct i as [| i]; [| destruct i; discriminate];
      cbn [nth_error] in Hs;
      let g' := fresh "g" in
      let sh' := fresh "sh" in
      let Ha := fresh "Ha" in
      destruct (advance h (Goroutine 0) g _) as [[g' sh'] |] eqn:Ha;
      [| discriminate];
      let HG := fresh "HG" in
      destruct (GoAt_run _ _ _ _ _ _ _ _ _ H Ha) as (? & ? & HG & ->);
      injection Hs as <-; unfold with_pool; cbn
  end.

(** Every choice keeps the configuration among those of [Inv]. *)
Lemma Inv_step (a : choice) (c c' : config S) :
  inv c -> step h a c = Some c' -> inv c'.
Proof.
  intros HI Hs.
  destruct HI; destruct a as [d | | i | i |]; unfold step in Hs;
    cbn [main rest pool now chans os syslog] in Hs.
  all: try (destruct (Z.ltb_spec 0 d); [| discriminate];
            injection Hs as <-; econstructor; eauto; lia).
  (* the caller is about to make the channel *)
  - injection Hs as <-. apply in_go. assumption.
  - destruct i; discriminate.
  - discriminate.
  - discriminate.
  (* the caller is about to start the goroutine *)
  - injection Hs as <-. apply in_timer; [assumption | apply at_start].
  - destruct i; discriminate.
  - discriminate.
  - discriminate.
  (* the caller is about to start the timer *)
  - injection Hs as <-. apply in_select; [lia | assumption].
  - goroutine_runs H0. apply in_timer; assumption.
  - discriminate.
  - discriminate.
  (* the caller waits in select *)
  - discriminate.
  - goroutine_runs H0. apply in_select; assumption.
  - destruct i as [| i]; [| destruct i; discriminate].
    cbn in Hs.
    destruct (sending g) as [[[ch v] g'] |] eqn:Hg; [| discriminate].
    destruct (GoAt_send _ _ _ _ _ _ H0 Hg) as (-> & -> & HG & _).
    rewrite Nat.eqb_refl in Hs. injection Hs as <-.
    unfold with_pool; cbn. apply in_received; first [lia | assumption].
  - cbn in Hs.
    match type of Hs with
    | (if ?b then _ else _) = _ => destruct b eqn:E; [| discriminate]
    end.
    apply Z.leb_le in E.
    injection Hs as <-. apply in_timeout with ta;
      first [assumption | unfold Second; lia].
  (* the caller has returned what it received *)
  - discriminate.
  - goroutine_runs H0. apply in_received; assumption.
  - discriminate.
  - discriminate.
  (* the caller has returned the timeout *)
  - discriminate.
  - goroutine_runs H1. apply in_timeout with ta; assumption.
  - discriminate.
  - discriminate.
Qed.

Lemma Inv_exec (sched : list choice) :
  forall c c', inv c -> exec h sched c = Some c' -> inv c'.
Proof.
  induction sched as [| a sched IH]; intros c c' HI He; cbn in He.
  - injection He as <-. exact HI.
  - destruct (step h a c) as [c1 |] eqn:Hs; [| discriminate].
    exact (IH _ _ (Inv_step a c c1 HI Hs) He).
Qed.

Lemma Inv_start : inv (start (remove path) t0 done s0 l0).
Proof. apply in_start. lia. Qed.
End Removal.

Section Consequences.
Context {S : Type} (h : syshandler S).
Variables (path : string) (t0 : Z) (done : chan) (s0 : S)
          (l0 : list (thread * syscall)).

Local Abbreviation rm := (removed h path s0).
Local Abbreviation goAt := (GoAt h path done s0 l0).
Local Abbreviation inv := (Inv h path t0 done s0 l0).


(** The caller returns what was sent, or the timeout once it is due. *)
Lemma Inv_result (c : config S) (v : goerror) :
  inv c -> main c = Ret v ->
  v = sent h path s0
  \/ (v = Some (TimeoutError path) /\ t0 + 30 * Second <= now (rest c)).
Proof.
  intros HI Hv. destruct HI; cbn in Hv; try discriminate.
  - injection Hv as <-. left. reflexivity.
  - injection Hv as <-. right. split; [reflexivity |]. cbn.
    unfold Second in *. lia.
Qed.




End Consequences.

Section Caller.
Context {S : Type} (h : syshandler S).
Variable f : goerror -> Prog goE goerror.
Hypothesis f_returns : forall r, exists v, f r = Ret v.

(** A caller that only returns once its callee has returned changes
    nothing in how the configuration moves. *)
Lemma step_in_caller (a : choice) (c : config S) :
  step h a (in_caller f c) = option_map (in_caller f) (step h a c).
Proof.
  destruct c as [m sh]. destruct a as [d | | i | i |];
    unfold step, in_caller; cbn.
  - destruct (0 <? d); reflexivity.
  - destruct m as [r | msg | X e k]; cbn.
    + destruct (f_returns r) as [v ->]. reflexivity.
    + reflexivity.
    + destruct e; cbn; try reflexivity.
      destruct (h _ c (os sh)); reflexivity.
  - destruct (nth_error (pool sh) i); [| reflexivity].
    destruct (advance h (Goroutine i) p sh) as [[g' sh'] |]; reflexivity.
  - destruct m as [r | msg | X e k]; cbn.
    + destruct (f_returns r) as [v ->]. reflexivity.
    + reflexivity.
    + destruct e; cbn; try reflexivity.
      destruct (nth_error (pool sh) i); [| reflexivity].
      destruct (sending p) as [[[ch' v] g'] |]; [| reflexivity].
      destruct (Nat.eqb c ch'); reflexivity.
  - destruct m as [r | msg | X e k]; cbn.
    + destruct (f_returns r) as [v ->]. reflexivity.
    + reflexivity.
    + destruct e; cbn; try reflexivity.
      destruct (timer <=? now sh); reflexivity.
Qed.

Lemma exec_in_caller (sched : list choice) : forall c,
  exec h sched (in_caller f c) = option_map (in_caller f) (exec h sched c).
Proof.
  induction sched as [| a sched IH]; intros c; cbn.
  - reflexivity.
  - rewrite step_in_caller.
    destruct (step h a c); cbn; [apply IH | reflexivity].
Qed.
End Caller.

Section RemoveDeviceRuns.
Context {S : Type} (h : syshandler S).
Variables (dev : string) (n : nat) (s : S) (l : list (thread * syscall)).

Local Abbreviation answer := (stat_answer h dev s).
Local Abbreviation s1 := (s_stat h dev s).
Local Abbreviation l1 := (l_stat h dev s l).

Lemma RemoveDevice_removed_returns :
  forall r, exists v, RemoveDevice_removed dev r = Ret v.
Proof. intros [e |]; eexists; reflexivity. Qed.

Lemma RemoveDevice_removed_wrapped (r : goerror) :
  RemoveDevice_removed dev r = Ret (wrapped dev r).
Proof. destruct r; reflexivity. Qed.

(** The first step of [RemoveDevice] is the stat. *)
Lemma RemoveDevice_stat (t : Z) :
  step h RunMain (start (RemoveDevice dev) t n s l)
  = Some match snd answer with
         | Some _ =>
             {| main := Ret None;
                rest := {| pool := []; now := t; chans := n;
                           os := s1; syslog := l1 |} |}
         | None =>
             in_caller (RemoveDevice_removed dev)
               (start (remove dev) t n s1 l1)
         end.
Proof.
  unfold step, start, in_caller, l_stat, s_stat, stat_answer. cbn.
  destruct (h _ (os_Stat dev) s) as [[fi [e |]] s']; reflexivity.
Qed.

(** Once the caller has returned with no goroutine started, only time
    passes. *)
Lemma returned_exec (v : goerror) (sched : list choice) : forall t s' l' c,
  exec h sched {| main := Ret v;
                  rest := {| pool := []; now := t; chans := n; os := s';
                             syslog := l' |} |} = Some c ->
  exists t', t <= t'
    /\ c = {| main := Ret v;
              rest := {| pool := []; now := t'; chans := n; os := s';
                         syslog := l' |} |}.
Proof.
  induction sched as [| a sched IH]; intros t s' l' c He.
  - injection He as <-. exists t. split; [lia | reflexivity].
  - cbn [exec] in He.
    destruct a as [d | | i | i |]; unfold step in He; cbn in He;
      try discriminate.
    + destruct (Z.ltb_spec 0 d); [| discriminate].
      destruct (IH _ _ _ _ He) as (t' & Ht & ->).
      exists t'. split; [lia | reflexivity].
    + destruct i; discriminate.
Qed.

(** Every execution of [RemoveDevice]: still before the stat, returned
    nil right after a failed stat, or inside [remove] after a successful
    one. *)
Lemma RemoveDevice_exec (sched : list choice) : forall t c,
  exec h sched (start (RemoveDevice dev) t n s l) = Some c ->
  (exists t', t <= t' /\ c = start (RemoveDevice dev) t' n s l)
  \/ (snd answer <> None
      /\ exists t', t <= t'
         /\ c = {| main := Ret None;
                   rest := {| pool := []; now := t'; chans := n;
                              os := s1; syslog := l1 |} |})
  \/ (snd answer = None
      /\ exists t' sched' c0, t <= t'
         /\ exec h sched' (start (remove dev) t' n s1 l1) = Some c0
         /\ c = in_caller (RemoveDevice_removed dev) c0).
Proof.
  induction sched as [| a sched IH]; intros t c He.
  - injection He as <-. left. exists t. split; [lia | reflexivity].
  - cbn [exec] in He.
    destruct a as [d | | i | i |].
    + unfold step, start in He. cbn in He.
      destruct (Z.ltb_spec 0 d); [| discriminate].
      destruct (IH (t + d) c He)
        as [(t' & Ht & ->)
           | [(E & t' & Ht & ->) | (E & t' & sc & c0 & Ht & Hc)]].
      * left. exists t'. split; [lia | reflexivity].
      * right. left. split; [exact E |]. exists t'. split; [lia | reflexivity].
      * right. right. split; [exact E |]. exists t', sc, c0.
        split; [lia | assumption].
    + rewrite RemoveDevice_stat in He.
      destruct (snd answer) as [e |] eqn:E.
      * right. left. split; [discriminate |].
        exact (returned_exec _ _ _ _ _ _ He).
      * right. right. split; [reflexivity |].
        rewrite (exec_in_caller h _ RemoveDevice_removed_returns) in He.
        destruct (exec h sched (start (remove dev) t n s1 l1))
          as [c0 |] eqn:E0; [| discriminate].
        injection He as <-. exists t, sched, c0.
        split; [lia |]. split; [exact E0 | reflexivity].
    + unfold step, start in He. cbn in He. destruct i; discriminate.
    + unfold step, start in He. cbn in He.
      destruct (h _ (os_Stat dev) s) as [[fi e] s']; discriminate.
    + unfold step, start in He. cbn in He.
      destruct (h _ (os_Stat dev) s) as [[fi e] s']; discriminate.
Qed.

(** After a failed stat. *)
Lemma RemoveDevice_stat_failed (sched : list choice) (t : Z) (c : config S) :
  snd answer <> None ->
  exec h sched (start (RemoveDevice dev) t n s l) = Some c ->
  exists t', t <= t'
    /\ (c = start (RemoveDevice dev) t' n s l
        \/ c = {| main := Ret None;
                  rest := {| pool := []; now := t'; chans := n;
                             os := s1; syslog := l1 |} |}).
Proof.
  intros Hf He.
  destruct (RemoveDevice_exec sched t c He)
    as [(t' & Ht & ->) | [(_ & t' & Ht & ->) | (E & _)]].
  - exists t'. split; [exact Ht | left; reflexivity].
  - exists t'. split; [exact Ht | right; reflexivity].
  - contradiction.
Qed.

(** What [RemoveDevice] returns after a successful stat. *)
Lemma RemoveDevice_result (sched : list choice) (t : Z) (c : config S)
    (v : goerror) :
  snd answer = None ->
  exec h sched (start (RemoveDevice dev) t n s l) = Some c ->
  main c = Ret v ->
  v = wrapped dev (sent h dev s1)
  \/ v = wrapped dev (Some (TimeoutError dev)).
Proof.
  intros Hok He Hv.
  destruct (RemoveDevice_exec sched t c He)
    as [(t' & Ht & ->) | [(E & _) | (_ & t' & sc & c0 & Ht & He0 & ->)]].
  - unfold start, RemoveDevice in Hv. cbn in Hv. discriminate.
  - contradiction.
  - pose proof (Inv_exec h dev t' n s1 l1 sc _ _
                  (Inv_start h dev t' n s1 l1) He0) as HI.
    unfold in_caller in Hv. cbn in Hv.
    destruct (main c0) as [r | msg | X e k] eqn:Hm; cbn in Hv;
      try discriminate.
    rewrite RemoveDevice_removed_wrapped in Hv. injection Hv as <-.
    destruct (Inv_result h dev t' n s1 l1 c0 r HI Hm) as [-> | (-> & _)];
      [left | right]; reflexivity.
Qed.
End RemoveDeviceRuns.

Section BoundedRemoval.
Context {S : Type} (h : syshandler S).


(** C7.  When the stat of [dev] fails because [dev] does not exist,
    [RemoveDevice] returns nil in its first step, at the time it was
    called; on every schedule it returns nothing but nil, logs at most the
    stat, starts no goroutine, makes no channel and never waits in a
    select. *)
Theorem RemoveDevice_missing_path (dev : string) (t : Z) (n : nat) (s s1 : S)
    (l : list (thread * syscall)) (fi : option FileInfo) (e : error)
    (sched : list choice) (c : config S) :
  h _ (os_Stat dev) s = ((fi, Some e), s1) ->
  notExist e = true ->
  exec h sched (start (RemoveDevice dev) t n s l) = Some c ->
  let stat := (Caller, SysCalled (os_Stat dev) (fi, Some e)) in
  step h RunMain (start (RemoveDevice dev) t n s l)
  = Some {| main := Ret None;
            rest := {| pool := []; now := t; chans := n; os := s1;
                       syslog := (l ++ [stat])%list |} |}
  /\ (forall v, main c = Ret v -> v = None)
  /\ (syslog (rest c) = l \/ syslog (rest c) = (l ++ [stat])%list)
  /\ pool (rest c) = []
  /\ chans (rest c) = n
  /\ selecting (main c) = None.
Proof.
  intros Hstat _ He stat.
  assert (Ha : stat_answer h dev s = (fi, Some e))
    by (unfold stat_answer; rewrite Hstat; reflexivity).
  assert (Hs : s_stat h dev s = s1)
    by (unfold s_stat; rewrite Hstat; reflexivity).
  split.
  { rewrite RemoveDevice_stat. unfold l_stat. rewrite Ha, Hs. reflexivity. }
  destruct (RemoveDevice_stat_failed h dev n s l sched t c) as (t' & Ht & Hc);
    [rewrite Ha; discriminate | exact He |].
  destruct Hc as [-> | ->]; cbn.
  - repeat split; auto. intros v Hv. discriminate.
  - unfold l_stat. rewrite Ha. repeat split; auto.
    intros v Hv. injection Hv as <-. reflexivity.
Qed.

(** C10.  Whatever the error of the stat of [dev], also one that does not
    say that [dev] is missing, [RemoveDevice] returns nil: some schedule
    returns, every schedule returns nothing but nil, and when it has
    returned the log holds the stat and nothing after it and the
    operating system is as the stat left it, so nothing was removed. *)
Theorem RemoveDevice_any_stat_error (dev : string) (t : Z) (n : nat)
    (s s1 : S) (l : list (thread * syscall)) (fi : option FileInfo)
    (e : error) (sched : list choice) (c : config S) :
  h _ (os_Stat dev) s = ((fi, Some e), s1) ->
  exec h sched (start (RemoveDevice dev) t n s l) = Some c ->
  (exists c1,
      exec h [RunMain] (start (RemoveDevice dev) t n s l) = Some c1
      /\ main c1 = Ret None)
  /\ (forall v,
        main c = Ret v ->
        v = None
        /\ os (rest c) = s1
        /\ syslog (rest c)
           = (l ++ [(Caller, SysCalled (os_Stat dev) (fi, Some e))])%list
        /\ pool (rest c) = []).
Proof.
  intros Hstat He.
  assert (Ha : stat_answer h dev s = (fi, Some e))
    by (unfold stat_answer; rewrite Hstat; reflexivity).
  assert (Hs : s_stat h dev s = s1)
    by (unfold s_stat; rewrite Hstat; reflexivity).
  split.
  { eexists. cbn [exec]. rewrite RemoveDevice_stat. rewrite Ha. cbn.
    split; reflexivity. }
  destruct (RemoveDevice_stat_failed h dev n s l sched t c) as (t' & Ht & Hc);
    [rewrite Ha; discriminate | exact He |].
  intros v Hv. destruct Hc as [-> | ->]; cbn in *.
  - discriminate.
  - injection Hv as <-. unfold l_stat. rewrite Ha, Hs. repeat split.
Qed.
(** The goroutine of [remove path] comes to its end only when the removal
    did not fail and the caller received its nil: after a timeout, and after
    a failure has been delivered, it stays blocked in a send on [done]. *)
Theorem removeAsync_finishes_only_after_nil (path : string) (t : Z) (n : nat)
    (s : S) (l : list (thread * syscall)) (sched : list choice)
    (c : config S) :
  exec h sched (start (remove path) t n s l) = Some c ->
  In (Ret tt) (pool (rest c)) ->
  let r := fst (h _ (os_Remove path) s) in
  main c = Ret None
  /\ failed r = false
  /\ syslog (rest c) = (l ++ [(Goroutine 0, SysCalled (os_Remove path) r)])%list.
Proof.
  intros He Hin r.
  assert (HI : Inv h path t n s l c).
  { exact (Inv_exec h path t n s l sched _ _ (Inv_start h path t n s l) He). }
  destruct HI; cbn in Hin; try contradiction.
  all: destruct Hin as [-> | []].
  all: match goal with
       | HG : GoAt _ _ _ _ _ _ (Ret tt) _ _ |- _ =>
           destruct (GoAt_finished h path n s l _ _ _ HG) as (Hb & Hf & ->)
       end;
    try discriminate.
  cbn. unfold sent, l_removed. rewrite Hf. unfold removed in *.
  repeat split. exact Hf.
Qed.
End BoundedRemoval.

(** ** Concrete runs *)

(** Nothing at the path: nil at once, nothing started. *)
Lemma RemoveDevice_missing_path_witness :
  exists c,
    exec fakeos [RunMain; Tick Second]
      (start (RemoveDevice "/dev/longhorn/vol1") 0 0 nofs []) = Some c
    /\ main c = Ret None
    /\ pool (rest c) = []
    /\ selecting (main c) = None.
Proof.
  eexists. split; [reflexivity |]. split; [reflexivity |].
  pose proof (RemoveDevice_missing_path fakeos "/dev/longhorn/vol1" 0 0%nat
                nofs nofs [] None (ENOENT "stat" "/dev/longhorn/vol1")
                [RunMain; Tick Second] _ eq_refl eq_refl eq_refl)
    as (_ & _ & _ & Hp & _ & Hsel).
  split; assumption.
Defined.

(** The node is there but its directory cannot be searched: nil all the
    same, and the node is still there. *)
Lemma RemoveDevice_any_stat_error_witness :
  exists c,
    exec fakeos [RunMain]
      (start (RemoveDevice "/dev/longhorn/vol1") 0 0 lockedfs []) = Some c
    /\ main c = Ret None
    /\ os (rest c) = lockedfs
    /\ lookup "/dev/longhorn/vol1" (nodes lockedfs) = Some 2049.
Proof.
  eexists. split; [reflexivity |]. split; [reflexivity |].
  split; [| reflexivity].
  exact (proj1 (proj2 (proj2
           (RemoveDevice_any_stat_error fakeos "/dev/longhorn/vol1" 0 0%nat
              lockedfs lockedfs [] None (EACCES "stat" "/dev/longhorn/vol1")
              [RunMain] _ eq_refl eq_refl) None eq_refl))).
Defined.


(** The goroutine is not scheduled for 30 seconds: the caller returns the
    timeout error, and the goroutine removes the node afterwards. *)
Example remove_times_out :
  exists c,
    exec fakeos
      [RunMain; RunMain; RunMain; Tick (30 * Second); Timeout; RunGo 0]
      (start (remove "/dev/longhorn/vol1") 0 0 vol1fs []) = Some c
    /\ main c = Ret (Some (TimeoutError "/dev/longhorn/vol1"))
    /\ Error (TimeoutError "/dev/longhorn/vol1")
       = "Timeout trying to delete /dev/longhorn/vol1."
    /\ nodes (os (rest c)) = [].
Proof.
  eexists. split; [reflexivity |]. repeat split.
Qed.

(** The node is busy: the failure of the removal reaches the caller of
    [RemoveDevice] wrapped. *)
Example RemoveDevice_busy :
  exists c,
    exec fakeos
      [RunMain; RunMain; RunMain; RunMain; RunGo 0; RunGo 0; Deliver 0]
      (start (RemoveDevice "/dev/longhorn/vol1") 0 0 busyfs []) = Some c
    /\ main c
       = Ret (Some (fmt_Errorf
                      ("Failed to removing device /dev/longhorn/vol1, "
                         ++ "remove /dev/longhorn/vol1: device or resource busy")))
    /\ pool (rest c) = [removeAsync_last 0%nat].
Proof.
  eexists. split; [reflexivity |]. split; reflexivity.
Qed.

(** Only on the schedule where its nil is received does the goroutine end. *)
Lemma removeAsync_finishes_only_after_nil_witness :
  exists c,
    exec fakeos [RunMain; RunMain; RunMain; RunGo 0; Deliver 0]
      (start (remove "/dev/longhorn/vol1") 0 0 vol1fs []) = Some c
    /\ pool (rest c) = [Ret tt]
    /\ main c = Ret None.
Proof.
  eexists. split; [reflexivity |]. split; [reflexivity |].
  exact (proj1 (removeAsync_finishes_only_after_nil fakeos
                  "/dev/longhorn/vol1" 0 0%nat vol1fs []
                  [RunMain; RunMain; RunMain; RunGo 0; Deliver 0] _ eq_refl
                  (or_introl eq_refl))).
Defined.

(** The first of two addresses becomes the portal. *)
Lemma NewScsiDevice_first_address_witness :
  exists dev,
    runDev (scripted None ["10.0.0.5"; "192.168.1.7"] "/dev/sdb")
      (NewScsiDevice "vol1" "/var/lib/vol1.img" "longhorn" "") down1
    = (Returned (Some dev, None), {| heap := vol1; ext := 1%nat |},
       [Called GetLocalIPs (["10.0.0.5"; "192.168.1.7"], None)])
    /\ Portal dev = "10.0.0.5"
    /\ Target dev = "iqn.2014-07.com.rancher:" ++ "vol1".
Proof.
  destruct (NewScsiDevice_first_address
              (scripted None ["10.0.0.5"; "192.168.1.7"] "/dev/sdb")
              "vol1" "/var/lib/vol1.img" "longhorn" "" down1
              "10.0.0.5" ["192.168.1.7"] 1%nat eq_refl)
    as (dev & Hrun & Hp & Ht & _).
  exists dev. split; [exact Hrun |]. split; [exact Hp | exact Ht].
Defined.

(* ===================================================================== *)
(** * Proofs: addresses                                                   *)
(* ===================================================================== *)

#[local] Arguments String.append _ _ : clear simpl.

Lemma star_one (p : ascii -> bool) (n : nat) :
  forall s o g, (String.length s <= n)%nat ->
  star (one p) n (cur s o g) = run_of p s o g.
Proof.
  induction n as [| n IH]; intros s o g Hn.
  - destruct s; [reflexivity | cbn in Hn; lia].
  - destruct s as [| a s']; cbn.
    + reflexivity.
    + unfold one. cbn. destruct (p a); cbn; [| reflexivity].
      rewrite Nat.leb_refl, List.app_nil_r. f_equal.
      apply (IH s' (S o) g). cbn in Hn. lia.
Qed.

Lemma run_of_last p s o g : exists l, run_of p s o g = (l ++ [cur s o g])%list.
Proof.
  destruct s as [| a s']; cbn.
  - exists []. reflexivity.
  - destruct (p a); [eexists; reflexivity | exists []; reflexivity].
Qed.
(** the cursors of a run: first is after the longest run *)
Lemma run_of_head p : forall ds rest o g,
  all p ds = true -> starts p rest = false ->
  exists l, run_of p (ds ++ rest) o g
            = cur rest (o + String.length ds) g :: l.
Proof.
  induction ds as [| a ds IH]; intros rest o g Hall Hrest; cbn.
  - rewrite Nat.add_0_r. destruct rest as [| b r]; cbn.
    + exists []. reflexivity.
    + cbn in Hrest. rewrite Hrest. exists []. reflexivity.
  - cbn in Hall. apply andb_prop in Hall as [Ha Hall]. rewrite Ha.
    destruct (IH rest (S o) g Hall Hrest) as [l ->].
    eexists. cbn. rewrite <- plus_n_Sm. reflexivity.
Qed.

Lemma flat_map_map' {A B C : Type} (f : B -> list C) (g : A -> B) (l : list A) :
  flat_map f (map g l) = flat_map (fun x => f (g x)) l.
Proof.
  induction l as [| x l IH]; cbn; [reflexivity | rewrite IH; reflexivity].
Qed.

Lemma alts_pattern (s : string) (o : nat) (g : list (nat * (nat * nat))) :
  alts (expr parsePattern) (cur s o g)
  = flat_map (try_port o) (run_of dot s o g).
Proof.
  cbn [expr parsePattern alts].
  change (alts AnyCharNotNL) with (one dot).
  cbn [ahead cur]. rewrite star_one by lia.
  rewrite flat_map_map'. reflexivity.
Qed.

Lemma digit_not_colon (d : ascii) : isDigit d = true -> Ascii.eqb ":" d = false.
Proof.
  intros H. destruct (Ascii.eqb_spec ":" d) as [<- |]; [discriminate | reflexivity].
Qed.

#[local] Arguments Ascii.eqb _ _ : simpl never.
#[local] Arguments isDigit _ : simpl never.

Lemma one_cons (p : ascii -> bool) (a : ascii) (s : string) (o : nat) g :
  one p {| ahead := String a s; offset := o; groups := g |}
  = if p a then [{| ahead := s; offset := S o; groups := g |}] else [].
Proof. reflexivity. Qed.

Lemma one_nil (p : ascii -> bool) (o : nat) g :
  one p {| ahead := ""; offset := o; groups := g |} = [].
Proof. reflexivity. Qed.

Lemma try_port_eq (o0 : nat) (t : string) (o : nat) g :
  try_port o0 (cur t o g)
  = match t with
    | String a (String d r) =>
        if Ascii.eqb ":" a && isDigit d
        then map (close 2 (S o)) (run_of isDigit r (S (S o)) ((1%nat, (o0, o)) :: g))
        else []
    | _ => []
    end.
Proof.
  unfold try_port, tailpat, close, cur. cbn [alts ahead offset groups].
  destruct t as [| a t]; [reflexivity |].
  rewrite one_cons.
  destruct (Ascii.eqb ":" a); cbn [andb flat_map]; [| destruct t; reflexivity].
  rewrite List.app_nil_r. cbn [alts ahead offset groups].
  destruct t as [| d r]; [reflexivity |].
  rewrite one_cons.
  destruct (isDigit d); cbn [flat_map map]; [| reflexivity].
  rewrite List.app_nil_r. cbn [ahead offset groups].
  pose proof (star_one isDigit (String.length r) r
                (S (S o)) ((1%nat, (o0, o)) :: g) (Nat.le_refl _)) as E.
  exact (f_equal (map (close 2 (S o))) E).
Qed.

Lemma try_port_miss (o0 : nat) (t : string) (o : nat) g :
  port_here t = false -> try_port o0 (cur t o g) = [].
Proof.
  intros H. rewrite try_port_eq. destruct t as [| a [| d r]]; try reflexivity.
  cbn [port_here] in H. rewrite H. reflexivity.
Qed.

Lemma try_port_hit (o0 : nat) (d : ascii) (ds rest : string) (o : nat) g :
  isDigit d = true -> all isDigit ds = true -> starts isDigit rest = false ->
  exists l,
    try_port o0 (cur (String ":" (String d ds ++ rest)) o g)
    = cur rest (S (S o) + String.length ds)
        ((2, (S o, S (S o) + String.length ds)) :: (1, (o0, o)) :: g)%nat
      :: l.
Proof.
  intros Hd Hds Hrest. rewrite try_port_eq. cbn [append].
  rewrite Hd. change (Ascii.eqb ":" ":") with true. cbn [andb].
  destruct (run_of_head isDigit ds rest (S (S o)) ((1%nat, (o0, o)) :: g) Hds Hrest)
    as [l ->].
  cbn [map]. eexists. reflexivity.
Qed.

Lemma try_port_some (o0 : nat) (t : string) (o : nat) g :
  port_here t = true -> try_port o0 (cur t o g) <> [].
Proof.
  intros H. rewrite try_port_eq. destruct t as [| a [| d r]]; try discriminate.
  cbn [port_here] in H. rewrite H.
  destruct (run_of_last isDigit r (S (S o)) ((1%nat, (o0, o)) :: g)) as [l ->].
  rewrite map_app. cbn. intros C.
  apply app_eq_nil in C as [_ C]. discriminate.
Qed.

Lemma miss_all (o0 : nat) : forall t o g,
  has_port t = false -> flat_map (try_port o0) (run_of dot t o g) = [].
Proof.
  induction t as [| a t IH]; intros o g H; cbn [run_of].
  - cbn [flat_map]. rewrite List.app_nil_r. apply try_port_miss. reflexivity.
  - cbn [has_port] in H. apply orb_false_elim in H as [Hp Ht].
    destruct (dot a).
    + rewrite flat_map_app, IH by exact Ht. cbn [flat_map app].
      rewrite List.app_nil_r. apply try_port_miss. exact Hp.
    + cbn [flat_map]. rewrite List.app_nil_r. apply try_port_miss. exact Hp.
Qed.

Lemma hit_back (o0 : nat) : forall t o g,
  flat_map (try_port o0) (run_of dot t o g) <> [] -> has_port t = true.
Proof.
  intros t o g H. destruct (has_port t) eqn:E; [reflexivity |].
  exfalso. apply H. apply miss_all. exact E.
Qed.

Lemma all_digits_no_port : forall ds rest,
  all isDigit ds = true -> has_port rest = false -> has_port (ds ++ rest) = false.
Proof.
  induction ds as [| d ds IH]; intros rest Hds Hrest; cbn.
  - exact Hrest.
  - cbn in Hds. apply andb_prop in Hds as [Hd Hds].
    rewrite (IH rest Hds Hrest), orb_false_r.
    destruct (ds ++ rest); [reflexivity |].
    rewrite (digit_not_colon d Hd). reflexivity.
Qed.

Lemma run_of_cons (p : ascii -> bool) (a : ascii) (s : string) (o : nat) g :
  p a = true ->
  run_of p (String a s) o g = (run_of p s (S o) g ++ [cur (String a s) o g])%list.
Proof. intros H. cbn [run_of]. rewrite H. reflexivity. Qed.

Lemma hit_host (o0 : nat) (d : ascii) (ds rest : string) g :
  isDigit d = true -> all isDigit ds = true -> starts isDigit rest = false ->
  has_port rest = false ->
  forall host o, all dot host = true ->
  exists l,
    flat_map (try_port o0)
      (run_of dot (host ++ String ":" (String d ds ++ rest)) o g)
    = cur rest (S (S (o + String.length host)) + String.length ds)
        ((2, (S (o + String.length host),
              S (S (o + String.length host)) + String.length ds))
           :: (1, (o0, o + String.length host)) :: g)%nat
      :: l.
Proof.
  intros Hd Hds Hrest Hnp.
  induction host as [| a host IH]; intros o Hh.
  - cbn [append String.length]. rewrite Nat.add_0_r.
    rewrite run_of_cons by reflexivity.
    rewrite flat_map_app.
    rewrite (miss_all o0 (String d (ds ++ rest)) (S o) g).
    2:{ apply (all_digits_no_port (String d ds) rest); [| exact Hnp].
        cbn [all]. rewrite Hd. exact Hds. }
    cbn [flat_map app]. rewrite List.app_nil_r.
    apply (try_port_hit o0 d ds rest o g Hd Hds Hrest).
  - cbn [all] in Hh. apply andb_prop in Hh as [Ha Hh].
    change (String a host ++ String ":" (String d ds ++ rest))
      with (String a (host ++ String ":" (String d ds ++ rest))).
    rewrite run_of_cons by exact Ha. rewrite flat_map_app.
    destruct (IH (S o) Hh) as [l E]. rewrite E.
    cbn [String.length]. rewrite <- !plus_n_Sm. cbn [Nat.add app].
    eexists. reflexivity.
Qed.

Lemma search_hit (r : regexp) (s : string) (o : nat) (c : cursor) (l : list cursor) :
  alts r (cur s o []) = c :: l -> search r s o = Some (o, c).
Proof.
  intros H. unfold cur in H. destruct s; cbn [search]; rewrite H; reflexivity.
Qed.

Lemma search_miss (r : regexp) : forall s o,
  (forall t o', alts r (cur t o' []) <> [] -> False) -> search r s o = None.
Proof.
  induction s as [| a s IH]; intros o H; cbn [search].
  - destruct (alts r _) eqn:E; [reflexivity |].
    exfalso. apply (H "" o). unfold cur. rewrite E. discriminate.
  - destruct (alts r _) eqn:E; [apply IH; exact H |].
    exfalso. apply (H (String a s) o). unfold cur. rewrite E. discriminate.
Qed.

Lemma search_has_port : forall s o,
  search (expr parsePattern) s o = None <-> has_port s = false.
Proof.
  induction s as [| a s IH]; intros o.
  - split; reflexivity.
  - cbn [search has_port].
    change {| ahead := String a s; offset := o; groups := [] |}
      with (cur (String a s) o []).
    rewrite alts_pattern.
    destruct (flat_map _ _) eqn:E.
    + rewrite IH. destruct (port_here (String a s)) eqn:P; [| reflexivity].
      exfalso. revert E.
      destruct (run_of_last dot (String a s) o []) as [l ->].
      rewrite flat_map_app. cbn [flat_map]. rewrite List.app_nil_r.
      intros E. apply app_eq_nil in E as [_ E].
      exact (try_port_some o _ o [] P E).
    + split; [discriminate |]. intros H.
      assert (N : flat_map (try_port o) (run_of dot (String a s) o []) <> [])
        by (rewrite E; discriminate).
      apply hit_back in N. cbn [has_port] in N. rewrite H in N. discriminate.
Qed.

Lemma substring_0_app (a b : string) (m : nat) :
  substring 0 (String.length a + m) (a ++ b) = a ++ substring 0 m b.
Proof.
  induction a as [| x a IH]; cbn; [reflexivity | rewrite IH; reflexivity].
Qed.

Lemma substring_0_all (a b : string) :
  substring 0 (String.length a) (a ++ b) = a.
Proof.
  induction a as [| x a IH]; cbn; [destruct b; reflexivity | rewrite IH; reflexivity].
Qed.

Lemma substring_skip (a b : string) (n m : nat) :
  substring (String.length a + n) m (a ++ b) = substring n m b.
Proof.
  induction a as [| x a IH]; cbn; [reflexivity | exact IH].
Qed.

Lemma FindStringSubmatch_address (host : string) (d : ascii) (ds rest : string) :
  all dot host = true -> isDigit d = true -> all isDigit ds = true ->
  starts isDigit rest = false -> has_port rest = false ->
  FindStringSubmatch parsePattern (host ++ ":" ++ String d ds ++ rest)
  = Some [host ++ ":" ++ String d ds; host; String d ds].
Proof.
  intros Hh Hd Hds Hrest Hnp. unfold FindStringSubmatch.
  destruct (hit_host 0 d ds rest [] Hd Hds Hrest Hnp host 0%nat Hh) as [l E].
  rewrite <- alts_pattern in E.
  change (":" ++ String d ds ++ rest) with (String ":" (String d ds ++ rest)).
  rewrite (search_hit _ _ _ _ _ E).
  cbn [offset groups cur map seq NumSubexp parsePattern group Nat.eqb Nat.add].
  f_equal. f_equal; [| f_equal; [| f_equal]].
  - match goal with |- substring 0 ?n _ = _ =>
      replace n with (String.length host + S (S (String.length ds)))%nat by lia
    end.
    rewrite substring_0_app. f_equal.
    cbn [append substring]. do 2 f_equal. apply substring_0_all.
  - rewrite Nat.sub_0_r. apply substring_0_all.
  - match goal with |- substring ?a ?n _ = _ =>
      replace n with (S (String.length ds)) by lia;
      replace a with (String.length host + 1)%nat by lia
    end.
    rewrite substring_skip. cbn [append substring]. f_equal.
    apply substring_0_all.
Qed.

Lemma digits_uint : forall ds,
  all isDigit ds = true -> exists u, NilEmpty.uint_of_string ds = Some u.
Proof.
  induction ds as [| a ds IH]; intros H.
  - eexists. reflexivity.
  - cbn [all] in H. apply andb_prop in H as [Ha Hds].
    destruct (IH Hds) as [u E]. cbn [NilEmpty.uint_of_string]. rewrite E.
    destruct a as [[] [] [] [] [] [] [] []];
      try (exfalso; vm_compute in Ha; discriminate Ha);
      eexists; reflexivity.
Qed.

Lemma Atoi_digits (ds : string) :
  ds <> "" -> all isDigit ds = true ->
  Atoi ds = if decimal ds <=? MaxInt64 then (decimal ds, None)
            else (MaxInt64, Some ErrRange).
Proof.
  intros Hne H. destruct (digits_uint ds H) as [u E].
  destruct ds as [| a r]; [contradiction Hne; reflexivity |].
  unfold decimal. rewrite E.
  cbn [all] in H. apply andb_prop in H as [Ha _].
  destruct a as [[] [] [] [] [] [] [] []];
    try (exfalso; vm_compute in Ha; discriminate Ha);
    unfold Atoi; rewrite E; reflexivity.
Qed.

Lemma digits_string_of_uint (u : Decimal.uint) :
  all isDigit (NilEmpty.string_of_uint u) = true.
Proof.
  induction u; cbn [NilEmpty.string_of_uint all]; rewrite ?IHu; reflexivity.
Qed.

Lemma itoa_digits (n : Z) :
  0 <= n -> itoa n <> "" /\ all isDigit (itoa n) = true /\ decimal (itoa n) = n.
Proof.
  intros Hn. unfold itoa. destruct n as [| p | p]; [| | lia].
  - repeat split. discriminate.
  - cbn [Z.to_int NilZero.string_of_int]. unfold NilZero.string_of_uint.
    pose proof (DecimalPos.Unsigned.to_uint_nonnil p) as Hnil.
    pose proof (DecimalPos.Unsigned.of_to p) as Hof.
    destruct (Pos.to_uint p) as [| u | u | u | u | u | u | u | u | u | u] eqn:Ep;
      [contradiction Hnil; reflexivity | ..];
      (split; [discriminate |]);
      (split; [apply digits_string_of_uint |]);
      unfold decimal; rewrite NilEmpty.usu; unfold Z.of_uint; rewrite Hof;
      reflexivity.
Qed.

Lemma ParseAddresses_digits (host ds rest : string) :
  all dot host = true -> ds <> "" -> all isDigit ds = true ->
  starts isDigit rest = false -> has_port rest = false ->
  ParseAddresses (host ++ ":" ++ ds ++ rest)
  = let port := Z.min (decimal ds) MaxInt64 in
    (host ++ ":" ++ itoa port,
     host ++ ":" ++ itoa (int64 (port + 1)),
     host ++ ":" ++ itoa (int64 (port + 2)), None).
Proof.
  intros Hh Hne Hds Hrest Hnp.
  destruct ds as [| d ds]; [contradiction Hne; reflexivity |].
  pose proof (Atoi_digits (String d ds) Hne Hds) as EA.
  cbn [all] in Hds. apply andb_prop in Hds as [Hd Hds].
  unfold ParseAddresses.
  rewrite (FindStringSubmatch_address host d ds rest Hh Hd Hds Hrest Hnp).
  cbn [nth]. rewrite EA.
  destruct (Z.leb_spec (decimal (String d ds)) MaxInt64) as [L | L]; cbn [fst].
  - rewrite Z.min_l by exact L. reflexivity.
  - rewrite Z.min_r by lia. reflexivity.
Qed.

(** [ParseAddresses] reports an error exactly on the names that have no
    colon directly followed by a digit; the three strings are then empty and
    the message quotes the name and the pattern. *)
Theorem ParseAddresses_error_iff (name : string) :
  if has_port name
  then snd (ParseAddresses name) = None
  else ParseAddresses name
       = ("", "", "",
          Some (fmt_Errorf ("Invalid address " ++ name
                              ++ " does not match pattern: (.*):(\d+)"))).
Proof.
  unfold ParseAddresses, FindStringSubmatch.
  destruct (has_port name) eqn:H.
  - destruct (search (expr parsePattern) name 0) as [[start c] |] eqn:E.
    + reflexivity.
    + apply search_has_port in E. rewrite E in H. discriminate.
  - apply search_has_port with (o := 0%nat) in H. rewrite H. reflexivity.
Qed.

(** A name made of a host without newline, a colon, decimal digits and a
    rest that does not go on with a digit and has no colon-and-digit of its
    own: the host is everything before that last colon, the rest is
    ignored, leading zeros of the port are dropped, and the three addresses
    are the host with the port, the port plus one and the port plus two. *)
Theorem ParseAddresses_host_port (host ds rest : string) :
  all dot host = true -> ds <> "" -> all isDigit ds = true ->
  starts isDigit rest = false -> has_port rest = false ->
  decimal ds <= MaxInt64 - 2 ->
  ParseAddresses (host ++ ":" ++ ds ++ rest)
  = (host ++ ":" ++ itoa (decimal ds),
     host ++ ":" ++ itoa (decimal ds + 1),
     host ++ ":" ++ itoa (decimal ds + 2), None).
Proof.
  intros Hh Hne Hds Hrest Hnp Hle.
  rewrite (ParseAddresses_digits host ds rest Hh Hne Hds Hrest Hnp).
  cbv zeta. rewrite Z.min_l by lia.
  assert (0 <= decimal ds).
  { unfold decimal. destruct (NilEmpty.uint_of_string ds); [| lia].
    unfold Z.of_uint. lia. }
  unfold MaxInt64 in Hle.
  rewrite !int64_small by lia. reflexivity.
Qed.

Lemma append_nil_r (s : string) : s ++ "" = s.
Proof. induction s as [| a s IH]; cbn; [reflexivity | rewrite IH; reflexivity]. Qed.

(** The address printed for host [host] and port [n] parses to itself and
    to the same host with the two following ports. *)
Theorem ParseAddresses_canonical (host : string) (n : Z) :
  all dot host = true -> 0 <= n <= MaxInt64 - 2 ->
  ParseAddresses (host ++ ":" ++ itoa n)
  = (host ++ ":" ++ itoa n, host ++ ":" ++ itoa (n + 1),
     host ++ ":" ++ itoa (n + 2), None).
Proof.
  intros Hh Hn. destruct (itoa_digits n (proj1 Hn)) as (Hne & Hds & Hdec).
  rewrite <- (append_nil_r (itoa n)) at 1.
  rewrite (ParseAddresses_digits host (itoa n) "" Hh Hne Hds eq_refl eq_refl).
  cbv zeta. rewrite Hdec. unfold MaxInt64 in *. rewrite Z.min_l by lia.
  rewrite !int64_small by lia. reflexivity.
Qed.

(** A port that does not fit the [int] is not reported: [strconv.Atoi]
    hands back the largest [int] with an error that is dropped, and the
    additions wrap around, so the second and third address carry negative
    ports. *)
Theorem ParseAddresses_port_out_of_range (host ds rest : string) :
  all dot host = true -> ds <> "" -> all isDigit ds = true ->
  starts isDigit rest = false -> has_port rest = false ->
  MaxInt64 < decimal ds ->
  ParseAddresses (host ++ ":" ++ ds ++ rest)
  = (host ++ ":9223372036854775807",
     host ++ ":-9223372036854775808",
     host ++ ":-9223372036854775807", None).
Proof.
  intros Hh Hne Hds Hrest Hnp Hgt.
  rewrite (ParseAddresses_digits host ds rest Hh Hne Hds Hrest Hnp).
  cbv zeta. rewrite Z.min_r by lia. reflexivity.
Qed.

(** The first address [ParseAddresses] returns for a name parses to the
    same three addresses as the name did. *)
Theorem ParseAddresses_normalises (host ds rest : string) :
  all dot host = true -> ds <> "" -> all isDigit ds = true ->
  starts isDigit rest = false -> has_port rest = false ->
  decimal ds <= MaxInt64 - 2 ->
  ParseAddresses (fst (fst (fst (ParseAddresses (host ++ ":" ++ ds ++ rest)))))
  = ParseAddresses (host ++ ":" ++ ds ++ rest).
Proof.
  intros Hh Hne Hds Hrest Hnp Hle.
  rewrite (ParseAddresses_digits host ds rest Hh Hne Hds Hrest Hnp).
  cbv zeta. cbn [fst]. rewrite Z.min_l by lia.
  assert (0 <= decimal ds).
  { unfold decimal. destruct (NilEmpty.uint_of_string ds); [| lia].
    unfold Z.of_uint. lia. }
  destruct (itoa_digits (decimal ds) H) as (Hne' & Hds' & Hdec).
  rewrite <- (append_nil_r (itoa (decimal ds))) at 1.
  rewrite (ParseAddresses_digits host (itoa (decimal ds)) "" Hh Hne' Hds'
             eq_refl eq_refl).
  cbv zeta. rewrite Hdec, Z.min_l by lia. reflexivity.
Qed.

Lemma ParseAddresses_host_port_witness :
  ParseAddresses "tcp://[::1]:0x:007/x" = ("tcp://[::1]:0x:7", "tcp://[::1]:0x:8", "tcp://[::1]:0x:9", None).
Proof.
  exact (ParseAddresses_host_port "tcp://[::1]:0x" "007" "/x" eq_refl
           ltac:(discriminate) eq_refl eq_refl eq_refl ltac:(vm_compute; discriminate)).
Defined.

Lemma ParseAddresses_canonical_witness :
  ParseAddresses "localhost:9501"
  = ("localhost:9501", "localhost:9502", "localhost:9503", None).
Proof.
  exact (ParseAddresses_canonical "localhost" 9501 eq_refl
           ltac:(unfold MaxInt64; lia)).
Defined.

Lemma ParseAddresses_port_out_of_range_witness :
  ParseAddresses "h:9223372036854775808"
  = ("h:9223372036854775807", "h:-9223372036854775808",
     "h:-9223372036854775807", None).
Proof.
  exact (ParseAddresses_port_out_of_range "h" "9223372036854775808" "" eq_refl
           ltac:(discriminate) eq_refl eq_refl eq_refl ltac:(vm_compute; reflexivity)).
Defined.

Lemma ParseAddresses_normalises_witness :
  ParseAddresses (fst (fst (fst (ParseAddresses "10.0.0.1:09500/v1"))))
  = ParseAddresses "10.0.0.1:09500/v1".
Proof.
  exact (ParseAddresses_normalises "10.0.0.1" "09500" "/v1" eq_refl
           ltac:(discriminate) eq_refl eq_refl eq_refl ltac:(vm_compute; discriminate)).
Defined.

(* ===================================================================== *)
(** * Proofs: slices of strings                                           *)
(* ===================================================================== *)

Lemma Filter_loop (check_ : string -> bool) : forall list result,
  fold_left (fun result i => if check_ i then (result ++ [i])%list else result)
    list result
  = (result ++ filter check_ list)%list.
Proof.
  induction list as [| i list IH]; intros result; cbn [fold_left filter].
  - rewrite List.app_nil_r. reflexivity.
  - rewrite IH. destruct (check_ i); [| reflexivity].
    rewrite <- List.app_assoc. reflexivity.
Qed.

Lemma Filter_filter (l : list string) (check_ : string -> bool) :
  Filter l check_ = filter check_ l.
Proof. unfold Filter. rewrite Filter_loop. reflexivity. Qed.

(** [Filter] keeps exactly the elements of the list that pass the test. *)
Theorem Filter_In (l : list string) (check_ : string -> bool) (x : string) :
  In x (Filter l check_) <-> In x l /\ check_ x = true.
Proof. rewrite Filter_filter. apply filter_In. Qed.

(** [Filter] goes through the list in order: filtering two lists one
    after the other is filtering each and appending the results. *)
Theorem Filter_app (l1 l2 : list string) (check_ : string -> bool) :
  Filter (l1 ++ l2) check_ = (Filter l1 check_ ++ Filter l2 check_)%list.
Proof. rewrite !Filter_filter. apply filter_app. Qed.

(** Filtering twice is filtering once with both tests. *)
Theorem Filter_Filter (l : list string) (p q : string -> bool) :
  Filter (Filter l p) q = Filter l (fun i => p i && q i).
Proof.
  rewrite !Filter_filter. induction l as [| i l IH]; cbn [filter].
  - reflexivity.
  - destruct (p i); cbn [filter andb]; [destruct (q i) |]; rewrite IH; reflexivity.
Qed.

(** After any number [k] of rounds of its loop the result of [Filter] is
    no longer than the list, the capacity it was made with. *)
Theorem Filter_within_capacity (l : list string) (check_ : string -> bool) (k : nat) :
  (List.length (Filter (firstn k l) check_) <= List.length l)%nat.
Proof.
  rewrite Filter_filter.
  etransitivity; [apply filter_length_le |].
  rewrite length_firstn. lia.
Qed.

(** [Contains] is true exactly when the value is an element of the
    slice. *)
Theorem Contains_In (arr : list string) (val : string) :
  Contains arr val = true <-> In val arr.
Proof.
  induction arr as [| a arr IH]; cbn [Contains In].
  - split; [discriminate | contradiction].
  - destruct (String.eqb_spec a val) as [-> | N].
    + split; auto.
    + rewrite IH. split; [auto | intros [E | H]; [contradiction | exact H]].
Qed.

(** A value is in what [Filter] returns exactly when it is in the list
    and passes the test. *)
Theorem Contains_Filter (l : list string) (check_ : string -> bool) (val : string) :
  Contains (Filter l check_) val = Contains l val && check_ val.
Proof.
  rewrite Filter_filter. induction l as [| i l IH]; cbn [filter Contains].
  - reflexivity.
  - destruct (check_ i) eqn:Hi; cbn [Contains];
      destruct (String.eqb_spec i val) as [-> | N]; rewrite ?IH, ?Hi;
      cbn [andb]; try reflexivity.
    destruct (Contains l val); reflexivity.
Qed.

(* ===================================================================== *)
(** * Proofs: the filtered logging handler                                *)
(* ===================================================================== *)

Section Serve.
Import Http.
Context {W : Type} (serve : Handler -> string -> Request -> W -> W).

(** The handler built by [FilteredLoggingHandler] passes every request,
    with its response writer, to exactly one handler and exactly once: to
    the router itself when the method is "GET" and the path is a key of
    the filtered paths, and to the logging handler around the router in
    every other case. *)
Theorem ServeHTTP_serves_once (paths : StringMap.t unit)
    (writer : string) (router : Handler) (w : string) (req : Request) (s : W) :
  let h := FilteredLoggingHandler paths writer router in
  exists target,
    run (handleHTTP serve) (ServeHTTP h w req) s
      = (Returned tt, serve target w req s, [(target, w, req)])
    /\ (Method req = "GET" /\ StringMap.In (Path (Url req)) paths ->
        target = router)
    /\ (Method req <> "GET" \/ ~ StringMap.In (Path (Url req)) paths ->
        target = LoggingHandler writer router).
Proof.
  intros h. unfold ServeHTTP, h, FilteredLoggingHandler. cbn.
  destruct (String.eqb_spec (Method req) "GET") as [Em | Em].
  - destruct (StringMap.find (Path (Url req)) paths) as [u |] eqn:Ef; cbn.
    + eexists. split; [reflexivity |]. split; [reflexivity |].
      intros [N | N]; [contradiction |]. exfalso. apply N.
      apply StringMapFacts.in_find_iff. rewrite Ef. discriminate.
    + eexists. split; [reflexivity |]. split; [| reflexivity].
      intros [_ I]. apply StringMapFacts.in_find_iff in I. contradiction.
  - cbn. eexists. split; [reflexivity |]. split; [| reflexivity].
    intros [E _]. contradiction.
Qed.
End Serve.

(* ===================================================================== *)
(** * Proofs: a device through its lifecycle                              *)
(* ===================================================================== *)

Section LifecycleFrame.
Context {S : Type} (h : handler S).


(** [Shutdown] after a successful [Startup].  If [GetDevice] handed back
    an empty path, [Shutdown] refuses with the already-down error and calls
    nothing, so what [Startup] set up stays.  If [Shutdown] succeeds, the
    device is the one [Startup] began with, with [Device] empty, and after
    its first two calls [Shutdown] took back every step of [Startup] that
    set something up, with the same identifiers and in the reverse order. *)
Theorem Startup_then_Shutdown (w w1 w2 : World S) (o : outcome goerror)
    (l1 l2 : list action) :
  runDev h Startup w = (Returned None, w1, l1) ->
  runDev h Shutdown w1 = (o, w2, l2) ->
  (Device (heap w1) = "" ->
     o = Returned (Some AlreadyDownError) /\ w2 = w1 /\ l2 = [])
  /\ (o = Returned None ->
      Device (heap w1) <> ""
      /\ heap w2 = set_Device "" (heap w)
      /\ (Device (heap w) = "" -> heap w2 = heap w)
      /\ skipn 2 (calls l2)
         = rev (flat_map (teardown_of (executor h w1)) (calls l1))).
Proof.
  intros H1 H2.
  assert (E : forall d : ScsiDevice, Device d = "" -> set_Device "" d = d)
    by (intros [] Hd; cbn in Hd; subst; reflexivity).
  assert (Hw1 : exists path, heap w1 = set_Device path (heap w)
                  /\ calls l1 = Startup_steps (heap w) (executor h w)).
  { revert H1. unfold runDev, Startup, executor. cbn.
    repeat (answer h; try ran); try ran; try discriminate.
    eexists. split; reflexivity. }
  destruct Hw1 as (path & Hh & Hc).
  split.
  - intros Hd. revert H2. unfold runDev, Shutdown. cbn. rewrite Hd. cbn.
    ran. repeat split.
  - intros ->. revert H2. unfold runDev, Shutdown, executor. cbn.
    destruct (String.eqb_spec (Device (heap w1)) ""); cbn; [discriminate |].
    repeat (answer h; try ran); try ran; try discriminate.
    split; [assumption |].
    rewrite Hc, Hh. cbn.
    split; [reflexivity |].
    split; [| reflexivity].
    intros Hd. symmetry. transitivity (set_Device "" (heap w));
      [symmetry; apply E; exact Hd | reflexivity].
Qed.
End LifecycleFrame.

(* ===================================================================== *)
(** * Proofs: the device numbers of [mknod]                               *)
(* ===================================================================== *)

Lemma testbit_0xff (n : Z) : Z.testbit 0xff n = (0 <=? n) && (n <? 8).
Proof.
  change 0xff with (Z.ones 8).
  destruct (Z.leb_spec 0 n); cbn [andb].
  - destruct (Z.ltb_spec n 8).
    + apply Z.ones_spec_low. lia.
    + apply Z.ones_spec_high. lia.
  - apply Z.testbit_neg_r. lia.
Qed.

Lemma testbit_0xfff00 (n : Z) : Z.testbit 0xfff00 n = (8 <=? n) && (n <? 20).
Proof.
  change 0xfff00 with (Z.shiftl (Z.ones 12) 8).
  destruct (Z.leb_spec 0 n).
  - rewrite Z.shiftl_spec by lia.
    destruct (Z.leb_spec 8 n); cbn [andb].
    + destruct (Z.ltb_spec n 20).
      * apply Z.ones_spec_low. lia.
      * apply Z.ones_spec_high. lia.
    + apply Z.testbit_neg_r. lia.
  - rewrite Z.testbit_neg_r by lia.
    destruct (Z.leb_spec 8 n); [lia | reflexivity].
Qed.

(** A number below [2 ^ k] has no bit at [k] or above. *)
Lemma testbit_above (a k n : Z) :
  0 <= a < 2 ^ k -> k <= n -> Z.testbit a n = false.
Proof.
  intros Ha Hn.
  destruct (Z.eq_dec a 0) as [-> | N]; [apply Z.bits_0 |].
  apply Z.bits_above_log2; [lia |].
  assert (0 <= k) by (destruct (Z.leb_spec 0 k); [assumption |
    rewrite Z.pow_neg_r in Ha by lia; lia]).
  assert (Z.log2 a < k) by (apply Z.log2_lt_pow2; lia). lia.
Qed.

(** A number with no bit at [k] or above is below [2 ^ k]. *)
Lemma below_pow2 (a k : Z) :
  0 <= a -> 0 <= k -> (forall n, k <= n -> Z.testbit a n = false) -> a < 2 ^ k.
Proof.
  intros Ha Hk Hb.
  destruct (Z.eq_dec a 0) as [-> | N]; [apply Z.pow_pos_nonneg; lia |].
  apply Z.log2_lt_pow2; [lia |].
  destruct (Z.ltb_spec (Z.log2 a) k) as [L | L]; [exact L |].
  pose proof (Hb (Z.log2 a) L) as C. rewrite Z.bit_log2 in C by lia.
  discriminate.
Qed.

Lemma mkdev_bits_spec (major minor n : Z) :
  0 <= n ->
  Z.testbit (mkdev_bits major minor) n
  = Z.testbit major (n - 8)
    || (Z.testbit minor n && (n <? 8))
    || (Z.testbit minor (n - 12) && ((20 <=? n) && (n <? 32))).
Proof.
  intros Hn. unfold mkdev_bits.
  rewrite !Z.lor_spec, !Z.shiftl_spec, !Z.land_spec by lia.
  rewrite testbit_0xff, testbit_0xfff00.
  f_equal; [f_equal |]; f_equal.
  - destruct (Z.leb_spec 0 n); [reflexivity | lia].
  - destruct (Z.leb_spec 8 (n - 12)), (Z.leb_spec 20 n); try lia;
    destruct (Z.ltb_spec (n - 12) 20), (Z.ltb_spec n 32); try lia; reflexivity.
Qed.

Lemma mkdev_in_range (major minor : Z) :
  0 <= major < 2 ^ 12 -> 0 <= minor < 2 ^ 20 ->
  mkdev major minor = mkdev_bits major minor
  /\ 0 <= mkdev_bits major minor < 2 ^ 32.
Proof.
  intros HM Hm.
  assert (H1 : 0 <= Z.shiftl major 8 < 2 ^ 20).
  { rewrite Z.shiftl_mul_pow2 by lia. lia. }
  assert (H2 : 0 <= Z.land minor 0xfff00).
  { apply Z.land_nonneg. lia. }
  assert (H3 : 0 <= Z.shiftl (Z.land minor 0xfff00) 12 < 2 ^ 32).
  { split; [apply Z.shiftl_nonneg; exact H2 |].
    apply below_pow2; [apply Z.shiftl_nonneg; exact H2 | lia |].
    intros n Hn. rewrite Z.shiftl_spec, Z.land_spec, testbit_0xfff00 by lia.
    destruct (Z.ltb_spec (n - 12) 20); [lia |].
    rewrite andb_false_r, andb_false_r. reflexivity. }
  assert (H4 : 0 <= mkdev_bits major minor < 2 ^ 32).
  { assert (0 <= mkdev_bits major minor).
    { unfold mkdev_bits. rewrite !Z.lor_nonneg. repeat split; try lia.
      apply Z.land_nonneg. lia. }
    split; [assumption |].
    apply below_pow2; [assumption | lia |].
    intros n Hn. rewrite mkdev_bits_spec by lia.
    rewrite (testbit_above major 12 (n - 8)) by lia.
    destruct (Z.ltb_spec n 8); [lia |].
    destruct (Z.ltb_spec n 32); [lia |].
    rewrite !andb_false_r. reflexivity. }
  split; [| exact H4].
  unfold mkdev. rewrite (int64_small (Z.shiftl major 8)) by lia.
  rewrite (int64_small (Z.shiftl _ 12)) by lia.
  fold (mkdev_bits major minor). apply int64_small. lia.
Qed.

(** For majors below [2 ^ 12] and minors below [2 ^ 20], the device
    number that [mknod] builds tells which major and minor it was built
    from: two pairs with the same number are the same pair. *)
Theorem mknod_numbers_distinct (major1 minor1 major2 minor2 : Z) :
  0 <= major1 < 2 ^ 12 -> 0 <= minor1 < 2 ^ 20 ->
  0 <= major2 < 2 ^ 12 -> 0 <= minor2 < 2 ^ 20 ->
  mkdev major1 minor1 = mkdev major2 minor2 ->
  major1 = major2 /\ minor1 = minor2.
Proof.
  intros HM1 Hm1 HM2 Hm2 E.
  rewrite (proj1 (mkdev_in_range _ _ HM1 Hm1)) in E.
  rewrite (proj1 (mkdev_in_range _ _ HM2 Hm2)) in E.
  assert (B : forall n, 0 <= n ->
            Z.testbit (mkdev_bits major1 minor1) n
            = Z.testbit (mkdev_bits major2 minor2) n)
    by (intros n _; rewrite E; reflexivity).
  split; apply Z.bits_inj'; intros n Hn.
  - destruct (Z.ltb_spec n 12) as [L | L].
    + specialize (B (n + 8) ltac:(lia)).
      rewrite !mkdev_bits_spec in B by lia.
      replace (n + 8 - 8) with n in B by lia.
      destruct (Z.ltb_spec (n + 8) 8); [lia |].
      destruct (Z.leb_spec 20 (n + 8)); [lia |].
      cbn [andb] in B. rewrite !andb_false_r, !orb_false_r in B. exact B.
    + rewrite (testbit_above major1 12 n), (testbit_above major2 12 n) by lia.
      reflexivity.
  - destruct (Z.ltb_spec n 8) as [L | L].
    + specialize (B n Hn). rewrite !mkdev_bits_spec in B by lia.
      rewrite !(Z.testbit_neg_r _ (n - 8)) in B by lia.
      destruct (Z.ltb_spec n 8); [| lia].
      destruct (Z.leb_spec 20 n); [lia |].
      cbn [andb orb] in B. rewrite !andb_true_r, !andb_false_r, !orb_false_r in B.
      exact B.
    + destruct (Z.ltb_spec n 20) as [L' | L'].
      * specialize (B (n + 12) ltac:(lia)).
        rewrite !mkdev_bits_spec in B by lia.
        replace (n + 12 - 12) with n in B by lia.
        rewrite (testbit_above major1 12 (n + 12 - 8)) in B by lia.
        rewrite (testbit_above major2 12 (n + 12 - 8)) in B by lia.
        destruct (Z.ltb_spec (n + 12) 8); [lia |].
        destruct (Z.leb_spec 20 (n + 12)); [| lia].
        destruct (Z.ltb_spec (n + 12) 32); [| lia].
        cbn [andb orb] in B. rewrite !andb_true_r, !andb_false_r in B.
        cbn [orb] in B. exact B.
      * rewrite (testbit_above minor1 20 n), (testbit_above minor2 20 n) by lia.
        reflexivity.
Qed.

(* ===================================================================== *)
(** * Proofs: what [RemoveDevice] returns                                 *)
(* ===================================================================== *)

Section RemoveDeviceReturns.
Context {S : Type} (h : syshandler S).

(** On every schedule, what [RemoveDevice] returns is nil, or the failure
    of [os.Remove], other than "does not exist", behind the text
    "Failed to removing device", or the timeout of [remove] behind the same
    text; an error is returned only after a successful stat. *)
Theorem RemoveDevice_returns (dev : string) (t : Z) (n : nat) (s : S)
    (l : list (thread * syscall)) (sched : list choice) (c : config S)
    (v : goerror) :
  exec h sched (start (RemoveDevice dev) t n s l) = Some c ->
  main c = Ret v ->
  v = None
  \/ (exists e,
        snd (stat_answer h dev s) = None
        /\ removed h dev (s_stat h dev s) = Some e
        /\ notExist e = false
        /\ v = Some (fmt_Errorf ("Failed to removing device " ++ dev ++ ", "
                                   ++ Error e)))
  \/ (snd (stat_answer h dev s) = None
      /\ v = Some (fmt_Errorf ("Failed to removing device " ++ dev ++ ", "
                                 ++ "Timeout trying to delete " ++ dev ++ "."))).
Proof.
  intros He Hv.
  destruct (snd (stat_answer h dev s)) as [e |] eqn:Hs.
  - left.
    destruct (RemoveDevice_stat_failed h dev n s l sched t c) as (t' & _ & [-> | ->]);
      [rewrite Hs; discriminate | exact He | discriminate Hv |].
    cbn in Hv. injection Hv as <-. reflexivity.
  - destruct (RemoveDevice_result h dev n s l sched t c v Hs He Hv) as [-> | ->].
    + unfold sent. destruct (removed h dev (s_stat h dev s)) as [e |] eqn:Hr;
        [| left; reflexivity].
      unfold failed. cbn. destruct (notExist e) eqn:Hn; cbn; [left; reflexivity |].
      right. left. exists e. repeat split. exact Hn.
    + right. right. split; reflexivity.
Qed.
End RemoveDeviceReturns.

(** ** Concrete runs *)


(** A volume is started and shut down again: the device is as before. *)
Lemma Startup_then_Shutdown_witness :
  exists w1 l1 w2 l2,
    runDev (scripted None ["10.0.0.5"] "/dev/sdb") Startup down1
      = (Returned None, w1, l1)
    /\ runDev (scripted None ["10.0.0.5"] "/dev/sdb") Shutdown w1
       = (Returned None, w2, l2)
    /\ heap w2 = heap down1.
Proof.
  pose (r1 := runDev (scripted None ["10.0.0.5"] "/dev/sdb") Startup down1).
  pose (r2 := runDev (scripted None ["10.0.0.5"] "/dev/sdb") Shutdown
                (snd (fst r1))).
  assert (H1 : r1 = (Returned None, snd (fst r1), snd r1))
    by (vm_compute; reflexivity).
  assert (H2 : r2 = (Returned None, snd (fst r2), snd r2))
    by (vm_compute; reflexivity).
  exists (snd (fst r1)), (snd r1), (snd (fst r2)), (snd r2).
  split; [exact H1 |]. split; [exact H2 |].
  refine (proj1 (proj2 (proj2
            (proj2 (Startup_then_Shutdown
                      (scripted None ["10.0.0.5"] "/dev/sdb")
                      down1 _ _ _ _ _ H1 H2) eq_refl))) _).
  reflexivity.
Defined.

(** The number 2065 comes from the device 8:17 only. *)
Lemma mknod_numbers_distinct_witness :
  mkdev 8 17 = 2065 /\ 2065 / 256 = 8 /\ 2065 mod 256 = 17.
Proof.
  split; [reflexivity |].
  apply (mknod_numbers_distinct (2065 / 256) (2065 mod 256) 8 17).
  all: first [reflexivity | vm_compute; split; [discriminate | reflexivity]].
Defined.

(** Past the range the numbers collide: major 4096 with minor 0 and
    major 0 with minor 256. *)
Example mkdev_collision : mkdev 4096 0 = mkdev 0 256.
Proof. reflexivity. Qed.

(** The node is busy: the failure of the removal, wrapped. *)
Lemma RemoveDevice_returns_witness :
  exists c v,
    exec fakeos
      [RunMain; RunMain; RunMain; RunMain; RunGo 0; RunGo 0; Deliver 0]
      (start (RemoveDevice "/dev/longhorn/vol1") 0 0 busyfs []) = Some c
    /\ main c = Ret v
    /\ v <> None
    /\ (v = None
        \/ (exists e,
              snd (stat_answer fakeos "/dev/longhorn/vol1" busyfs) = None
              /\ removed fakeos "/dev/longhorn/vol1"
                   (s_stat fakeos "/dev/longhorn/vol1" busyfs) = Some e
              /\ notExist e = false
              /\ v = Some (fmt_Errorf
                             ("Failed to removing device "
                                ++ "/dev/longhorn/vol1" ++ ", " ++ Error e)))
        \/ (snd (stat_answer fakeos "/dev/longhorn/vol1" busyfs) = None
            /\ v = Some (fmt_Errorf
                           ("Failed to removing device "
                              ++ "/dev/longhorn/vol1" ++ ", "
                              ++ "Timeout trying to delete "
                              ++ "/dev/longhorn/vol1" ++ ".")))).
Proof.
  pose (c0 := start (RemoveDevice "/dev/longhorn/vol1") 0 0 busyfs []).
  pose (c := match exec fakeos
                     [RunMain; RunMain; RunMain; RunMain; RunGo 0; RunGo 0;
                      Deliver 0] c0 with
             | Some c => c
             | None => c0
             end).
  pose (v := match main c with
             | Ret v => v
             | _ => None
             end).
  assert (H1 : exec fakeos
                 [RunMain; RunMain; RunMain; RunMain; RunGo 0; RunGo 0;
                  Deliver 0] c0 = Some c)
    by (vm_compute; reflexivity).
  assert (H2 : main c = Ret v) by (vm_compute; reflexivity).
  exists c, v. split; [exact H1 |]. split; [exact H2 |].
  split; [vm_compute; discriminate |].
  exact (RemoveDevice_returns fakeos "/dev/longhorn/vol1" 0 0%nat busyfs []
           [RunMain; RunMain; RunMain; RunMain; RunGo 0; RunGo 0; Deliver 0]
           c v H1 H2).
Defined.
